(** * FinDash: the partitioned transaction store

    A shallow embedding of [findash/transactions_db.py]: the schema registry
    [TransactionsDBSchema] and the parquet-backed store
    [TransactionsDBParquet], together with the properties of the store that
    its specification states.

    The in-memory table is a pandas [DataFrame]; it is modelled by its
    column labels and its rows, a row being a finite map from column label
    to cell, and the dtype of a column is read off its cells.  The
    directory tree below [trans_db_path] is modelled by the set of its
    folders (one per year) and a finite map from (folder name, file name)
    to the frame stored in that file.  Reading and writing parquet files is
    taken to be lossless; a write succeeds when the file's folder exists. *)

From Stdlib Require Import ZArith PrimFloat.
From Stdlib Require Import Floats.SpecFloat Floats.FloatOps Floats.FloatAxioms.
From stdpp Require Import gmap strings list pretty fin_maps.

(** ** Python values held in cells *)

(** A [pd.Timestamp]: the calendar date and the time of day, in
    nanoseconds since midnight. *)
Record Timestamp := { year : Z; month : Z; day : Z; time_ns : Z }.

Inductive value :=
| VNone
| VBool (b : bool)
| VInt (z : Z)
| VFloat (f : float)
| VStr (s : string)
| VTimestamp (t : Timestamp)
| VNaT.

(** What [date.year] and [date.month] evaluate to: an [int], or [nan] when
    the date is [NaT]. *)
Inductive pynum := PInt (z : Z) | PNaN.

Global Instance Timestamp_eq_dec : EqDecision Timestamp.
Proof. solve_decision. Defined.
Global Instance pynum_eq_dec : EqDecision pynum.
Proof. solve_decision. Defined.
Global Instance pynum_countable : Countable pynum.
Proof.
  refine (inj_countable'
            (λ n, match n with PInt z => Some z | PNaN => None end)
            (λ o, match o with Some z => PInt z | None => PNaN end) _).
  by intros [].
Defined.

(** ** Exceptions and results *)

Inductive exn :=
| KeyError (key : string)
| IndexError
| AttributeError
| ValueError
| TypeError
| OverflowError
| OSError
| NotImplementedError.

Inductive result (A : Type) := Ok (a : A) | Err (e : exn).
Arguments Ok {A} a.
Arguments Err {A} e.

Global Instance result_ret : MRet result := λ A a, Ok a.
Global Instance result_bind : MBind result := λ A B f m,
  match m with Ok a => f a | Err e => Err e end.
Global Instance result_fmap : FMap result := λ A B f m,
  match m with Ok a => Ok (f a) | Err e => Err e end.

(** [[f(x) for x in l]], stopping at the first exception. *)
Fixpoint traverse {A B} (f : A → result B) (l : list A) : result (list B) :=
  match l with
  | [] => Ok []
  | x :: l' => y ← f x; ys ← traverse f l'; Ok (y :: ys)
  end.

(** ** Numbers *)

Definition nan : float := PrimFloat.nan.

(** [float(z)]: the binary64 number nearest to [z]. *)
Definition float_of_Z (z : Z) : float :=
  SF2Prim (binary_normalize 53 1024 z 0 false).

Definition is_inf (f : float) : bool :=
  (PrimFloat.eqb f infinity || PrimFloat.eqb f neg_infinity)%bool.

(** [int(n)] on what [date.year] returns. *)
Definition py_int (n : pynum) : result Z :=
  match n with PInt z => Ok z | PNaN => Err ValueError end.

(** [str(n)] on what [date.year] returns. *)
Definition py_str (n : pynum) : string :=
  match n with PInt z => pretty z | PNaN => "nan" end.

(** Elementwise [series == z] on a column of years or months. *)
Definition pynum_eqb (n : pynum) (z : Z) : bool :=
  match n with PInt x => bool_decide (x = z) | PNaN => false end.

(** ** Data frames *)

Abbreviation row := (gmap string value).

Record DataFrame := { columns : list string; rows : list row }.

(** [pd.DataFrame()] *)
Definition DataFrame_empty : DataFrame := {| columns := []; rows := [] |}.

(** A cell absent from a row (a column the row's frame of origin did not
    have) reads as [NaN], as after [pd.concat]. *)
Definition cell (c : string) (r : row) : value := default (VFloat nan) (r !! c).

(** [df[c]] *)
Definition getitem (df : DataFrame) (c : string) : result (list value) :=
  if decide (c ∈ columns df) then Ok (cell c <$> rows df) else Err (KeyError c).

(** [df[c] = vals] *)
Definition setitem (df : DataFrame) (c : string) (vals : list value) : DataFrame :=
  {| columns := if decide (c ∈ columns df) then columns df else columns df ++ [c];
     rows := zip_with (λ r v, <[c := v]> r) (rows df) vals |}.

(** [l[m]]: boolean-mask selection. *)
Fixpoint select {A} (l : list A) (m : list bool) : list A :=
  match l, m with
  | x :: l', b :: m' => if b then x :: select l' m' else select l' m'
  | _, _ => []
  end.

(** [df[m]] with [m] a boolean series. *)
Definition mask (df : DataFrame) (m : list bool) : DataFrame :=
  {| columns := columns df; rows := select (rows df) m |}.

(** Column labels of [pd.concat]: those of the first frame, then the new
    ones of each later frame in turn. *)
Definition union_columns (cs ds : list string) : list string :=
  cs ++ filter (λ d, d ∉ cs) ds.

(** [pd.concat(dfs)] *)
Definition pd_concat (dfs : list DataFrame) : DataFrame :=
  {| columns := foldl union_columns [] (columns <$> dfs);
     rows := concat (rows <$> dfs) |}.

(** [series.iloc[0]] *)
Definition iloc0 (s : list value) : result value :=
  match s with v :: _ => Ok v | [] => Err IndexError end.

(** [date.year], [date.month] on a cell. *)
Definition attr_year (v : value) : result pynum :=
  match v with
  | VTimestamp t => Ok (PInt (year t))
  | VNaT => Ok PNaN
  | _ => Err AttributeError
  end.
Definition attr_month (v : value) : result pynum :=
  match v with
  | VTimestamp t => Ok (PInt (month t))
  | VNaT => Ok PNaN
  | _ => Err AttributeError
  end.

(** [series.dt.year], [series.dt.month]: the accessor exists on a column
    of datetimes only; the column's dtype is read off its cells. *)
Definition dt_year (s : list value) : result (list pynum) := traverse attr_year s.
Definition dt_month (s : list value) : result (list pynum) := traverse attr_month s.

(** [series.isin(l)] on one cell, [l] a list of strings. *)
Definition isin (l : list string) (v : value) : bool :=
  match v with VStr s => bool_decide (s ∈ l) | _ => false end.

(** ** Collaborators

    [utils.create_uuid] is an opaque generator of identifiers:
    [create_uuid n] is the identifier it hands out at its [n]-th call. *)
Class Utils := { create_uuid : nat → string }.

(** pandas' conversions of single values that the development leaves open:
    text, numbers (epoch offsets) and booleans read as dates, text read as
    a float, and the truth value of a date. *)
Class Pandas := {
  parse_datetime : value → result (option Timestamp);
  parse_float : string → result float;
  datetime_bool : option Timestamp → result bool;
}.

(** Modelled from the spec: [db.Record], which is defined outside this
    file.  The store uses its [id] and the one-row frame [to_df()]
    builds. *)
Record DbRecord := { record_id : string; to_df : DataFrame }.

(** ** Schema registry *)

Module TransactionsDBSchema.
Definition ID : string := "id".
Definition DATE : string := "date".
Definition PAYEE : string := "payee".
Definition CAT : string := "cat".
Definition MEMO : string := "memo".
Definition ACCOUNT : string := "account".
Definition INFLOW : string := "inflow".
Definition OUTFLOW : string := "outflow".
Definition RECONCILED : string := "reconciled".
Definition AMOUNT : string := "amount".

Definition get_mandatory_cols : list string := [DATE; PAYEE; AMOUNT].

Definition get_non_mandatory_cols : list (string * value) :=
  [ (CAT, VStr EmptyString);
    (MEMO, VStr EmptyString);
    (ACCOUNT, VNone);
    (INFLOW, VInt 0);
    (OUTFLOW, VInt 0);
    (RECONCILED, VBool false) ].

(** [fields(cls)]: the dataclass fields, by attribute name and default. *)
Definition get_db_col_names : list string :=
  ["ID"; "DATE"; "PAYEE"; "CAT"; "MEMO"; "ACCOUNT"; "INFLOW"; "OUTFLOW";
   "RECONCILED"; "AMOUNT"].
Definition get_db_col_vals : list string :=
  [ID; DATE; PAYEE; CAT; MEMO; ACCOUNT; INFLOW; OUTFLOW; RECONCILED; AMOUNT].
Definition get_db_col_dict : list (string * string) :=
  zip get_db_col_names get_db_col_vals.

Definition get_numeric_cols : list string := [INFLOW; OUTFLOW; AMOUNT].
End TransactionsDBSchema.
Import TransactionsDBSchema.

(** ** The store and its state *)

(** What a method of the store can read and change: the table [self._db],
    the folders and the files below [SETTINGS['db']['trans_db_path']] (a
    file is keyed by folder and file name), and the number of identifiers
    [create_uuid] has issued.  The store creates no folder. *)
Record Store := {
  _db : DataFrame;
  folders : gset string;
  files : gmap (string * string) DataFrame;
  uuid_calls : nat;
}.

(** A method either returns or raises, and leaves a state behind in both
    cases. *)
Definition M (A : Type) : Type := Store → result A * Store.

Global Instance M_ret : MRet M := λ A a s, (Ok a, s).
Global Instance M_bind : MBind M := λ A B f m s,
  match m s with
  | (Ok a, s') => f a s'
  | (Err e, s') => (Err e, s')
  end.

Definition lift {A} (r : result A) : M A := λ s, (r, s).
Definition raise {A} (e : exn) : M A := λ s, (Err e, s).
Definition get_db : M DataFrame := λ s, (Ok (_db s), s).
Definition set_db (db : DataFrame) : M unit := λ s,
  (Ok (), {| _db := db; folders := folders s; files := files s;
             uuid_calls := uuid_calls s |}).

(** [df.to_parquet(root / folder / file)]: the file is created or
    overwritten; pandas creates no folder, and raises when the file's
    folder does not exist. *)
Definition to_parquet (df : DataFrame) (path : string * string) : M unit := λ s,
  if decide (path.1 ∈ folders s) then
    (Ok (), {| _db := _db s; folders := folders s;
               files := <[path := df]> (files s);
               uuid_calls := uuid_calls s |})
  else (Err OSError, s).

(** [Path(root) / str(year) / f'{month}.pq'], relative to the root. *)
Definition partition_path (k : pynum * pynum) : string * string :=
  (py_str k.1, py_str k.2 +:+ ".pq").

(** *** Assignments in place

    [_add_uuids] and [_apply_dtypes] assign into the frame they are given
    and return that same object, so the frame the caller passed to
    [insert_data] changes with each [df[c] = ...] that is carried out.
    [InPlace] threads that object: the frame a computation leaves is the
    caller's frame after it, whether the computation returns or raises. *)
Definition InPlace (A : Type) : Type := DataFrame → result A * DataFrame.

Global Instance InPlace_ret : MRet InPlace := λ A a df, (Ok a, df).
Global Instance InPlace_bind : MBind InPlace := λ A B f m df,
  match m df with
  | (Ok a, df') => f a df'
  | (Err e, df') => (Err e, df')
  end.

(** [df[c] = f(df[c])], on the object [df]. *)
Definition convert_inplace (f : value → result value) (c : string)
  : InPlace unit := λ df,
  match s ← getitem df c; traverse f s with
  | Ok s' => (Ok (), setitem df c s')
  | Err e => (Err e, df)
  end.

Section store.
Context {U : Utils} {PD : Pandas}.

(** *** Type coercion *)

(** [pd.to_datetime] on one cell. *)
Definition to_datetime (v : value) : result value :=
  let parsed :=
    o ← parse_datetime v;
    Ok (match o with Some t => VTimestamp t | None => VNaT end) in
  match v with
  | VTimestamp _ => Ok v
  | VNaT | VNone => Ok VNaT
  | VFloat f => if PrimFloat.is_nan f then Ok VNaT else parsed
  | _ => parsed
  end.

(** [astype(float)] on one cell. *)
Definition astype_float (v : value) : result value :=
  match v with
  | VFloat _ => Ok v
  | VInt z =>
      let f := float_of_Z z in
      if is_inf f then Err OverflowError else Ok (VFloat f)
  | VBool b => Ok (VFloat (if b then 1 else 0))
  | VNone => Ok (VFloat nan)
  | VStr s => VFloat <$> parse_float s
  | VTimestamp _ | VNaT => Err TypeError
  end.

(** [astype(bool)] on one cell. *)
Definition astype_bool (v : value) : result value :=
  match v with
  | VBool _ => Ok v
  | VInt z => Ok (VBool (negb (bool_decide (z = 0%Z))))
  | VFloat f => Ok (VBool (negb (PrimFloat.eqb f 0)))
  | VStr s => Ok (VBool (negb (bool_decide (s = EmptyString))))
  | VNone => Ok (VBool false)
  | VTimestamp t => VBool <$> datetime_bool (Some t)
  | VNaT => VBool <$> datetime_bool None
  end.

(** [astype('category')] on one cell: a missing value reads back as
    [NaN], any other value is its own category. *)
Definition astype_category (v : value) : result value :=
  match v with
  | VNone | VNaT => Ok (VFloat nan)
  | _ => Ok v
  end.

(** [df[c] = f(df[c])] *)
Definition convert (f : value → result value) (c : string) (df : DataFrame)
  : result DataFrame :=
  s ← getitem df c; s' ← traverse f s; Ok (setitem df c s').

(** Apply the dtypes of the schema to the frame, column by column. *)
Definition _apply_dtypes (df : DataFrame) : result DataFrame :=
  df ← convert to_datetime DATE df;
  df ← convert astype_bool RECONCILED df;
  df ← convert astype_float INFLOW df;
  df ← convert astype_float OUTFLOW df;
  df ← convert astype_float AMOUNT df;
  df ← convert astype_category CAT df;
  df ← convert astype_category ACCOUNT df;
  df ← convert astype_bool RECONCILED df;
  Ok df.

(** [_apply_dtypes], on the object [df]. *)
Definition _apply_dtypes_inplace : InPlace unit :=
  convert_inplace to_datetime DATE;;
  convert_inplace astype_bool RECONCILED;;
  convert_inplace astype_float INFLOW;;
  convert_inplace astype_float OUTFLOW;;
  convert_inplace astype_float AMOUNT;;
  convert_inplace astype_category CAT;;
  convert_inplace astype_category ACCOUNT;;
  convert_inplace astype_bool RECONCILED.

(** Elementwise [cell == val]: a missing value equals nothing, numbers
    compare across [bool], [int] and [float], a date compares with text
    through the parser, values of unrelated types differ. *)
Definition series_eq (x val : value) : bool :=
  match x, val with
  | VBool a, VBool b => bool_decide (a = b)
  | VInt a, VInt b => bool_decide (a = b)
  | VFloat a, VFloat b => PrimFloat.eqb a b
  | VStr a, VStr b => bool_decide (a = b)
  | VTimestamp a, VTimestamp b => bool_decide (a = b)
  | VBool a, VInt b | VInt b, VBool a => bool_decide (Z.b2z a = b)
  | VInt a, VFloat b | VFloat b, VInt a => PrimFloat.eqb (float_of_Z a) b
  | VBool a, VFloat b | VFloat b, VBool a =>
      PrimFloat.eqb (float_of_Z (Z.b2z a)) b
  | VTimestamp a, VStr _ =>
      match parse_datetime val with
      | Ok (Some b) => bool_decide (a = b)
      | _ => false
      end
  | _, _ => false
  end.

(** *** TransactionsDBParquet *)

(** Load every file of every folder and concatenate them; an empty root
    gives the empty frame. *)
Definition connect (root : gmap (string * string) DataFrame) : DataFrame :=
  let pq_files := (map_to_list root).*2 in
  if decide (length pq_files = 0) then DataFrame_empty else pd_concat pq_files.

(** [__init__] over a given directory tree. *)
Definition init (dirs : gset string)
    (root : gmap (string * string) DataFrame) (n : nat) : Store :=
  {| _db := connect root; folders := dirs; files := root; uuid_calls := n |}.

(** Disconnecting from a parquet store is not implemented. *)
Definition disconnect : M unit := raise NotImplementedError.

(** [self._db[cond1 & cond2]] for one [(year, month)] of [save_db]. *)
Definition month_slice (db : DataFrame) (k : pynum * pynum) : result DataFrame :=
  dates ← getitem db DATE;
  years ← dt_year dates;
  y ← py_int k.1;
  let cond1 := (λ n, pynum_eqb n y) <$> years in
  dates ← getitem db DATE;
  months ← dt_month dates;
  m ← py_int k.2;
  let cond2 := (λ n, pynum_eqb n m) <$> months in
  Ok (mask db (zip_with andb cond1 cond2)).

(** Write the table's rows of each [(year, month)] to its file. *)
Fixpoint save_db (months_to_save : list (pynum * pynum)) : M unit :=
  match months_to_save with
  | [] => mret ()
  | k :: rest =>
      db ← get_db;
      part ← lift (month_slice db k);
      to_parquet part (partition_path k);;
      save_db rest
  end.

(** The loop of [_get_months_from_uuid]: [months] is the set built so
    far. *)
Fixpoint months_loop (db : DataFrame) (uuid_lst : list string)
    (months : gset (pynum * pynum)) : result (gset (pynum * pynum)) :=
  match uuid_lst with
  | [] => Ok months
  | uuid :: rest =>
      ids ← getitem db ID;
      dates ← getitem (mask db ((λ x, series_eq x (VStr uuid)) <$> ids)) DATE;
      date ← iloc0 dates;
      y ← attr_year date;
      m ← attr_month date;
      months_loop db rest ({[ (y, m) ]} ∪ months)
  end.

(** The months of the rows with the given ids, each once. *)
Definition _get_months_from_uuid (db : DataFrame) (uuid_lst : list string)
  : result (list (pynum * pynum)) :=
  elements <$> months_loop db uuid_lst ∅.

(** Save the files of the months of the rows with the given ids. *)
Definition save_db_from_uuid (uuid_list : list string) : M unit :=
  db ← get_db;
  months ← lift (_get_months_from_uuid db uuid_list);
  save_db months.

(** The rows whose id is in the list. *)
Definition get_data_by_id (db : DataFrame) (uuid_list : list string)
  : result DataFrame :=
  ids ← getitem db ID;
  Ok (mask db (isin uuid_list <$> ids)).

(** The rows that match every column/value pair of the dict, taken in
    the dict's order. *)
Fixpoint get_data_by_col_val (db_tmp : DataFrame)
    (col_val_dict : list (string * value)) : result DataFrame :=
  match col_val_dict with
  | [] => Ok db_tmp
  | (col, val) :: rest =>
      s ← getitem db_tmp col;
      get_data_by_col_val (mask db_tmp ((λ x, series_eq x val) <$> s)) rest
  end.

(** [df.apply(lambda x: create_uuid(), axis=1)]: one call per row. *)
Definition _add_uuids (df : DataFrame) : M DataFrame := λ s,
  let n := uuid_calls s in
  let uuids := (λ i, VStr (create_uuid i)) <$> seq n (length (rows df)) in
  (Ok (setitem df ID uuids),
   {| _db := _db s; folders := folders s; files := files s;
      uuid_calls := n + length (rows df) |}).

(** [series.to_list()] on a column of strings. *)
Definition to_list (s : list value) : list string :=
  omap (λ v, match v with VStr u => Some u | _ => None end) s.

(** Insert the rows of a frame: give them ids, coerce them, append them
    to the table, save their months. *)
Definition insert_data (df : DataFrame) : M unit :=
  df ← _add_uuids df;
  df ← lift (_apply_dtypes df);
  db ← get_db;
  set_db (pd_concat [db; df]);;
  ids ← lift (getitem df ID);
  save_db_from_uuid (to_list ids).

(** Insert a record as it is and save its month. *)
Definition insert_record (record : DbRecord) : M unit :=
  db ← get_db;
  set_db (pd_concat [db; to_df record]);;
  save_db_from_uuid [record_id record].

Definition update_data : M unit := mret ().

(** Delete the rows with the given ids: find their months, drop the
    rows, save those months. *)
Definition delete_data (uuid_list : list string) : M unit :=
  db ← get_db;
  months ← lift (_get_months_from_uuid db uuid_list);
  db ← get_db;
  ids ← lift (getitem db ID);
  set_db (mask db ((λ x, negb (isin uuid_list x)) <$> ids));;
  save_db months.

End store.

(** * Notions used to state the properties *)

Section notions.
Context {U : Utils} {PD : Pandas}.


(** A partition key as [_get_months_from_uuid] builds it. *)
Definition int_key (k : Z * Z) : pynum * pynum := (PInt k.1, PInt k.2).




(** What [save_db] writes, file by file, and how it ends: a function of
    the table and of the folders present. *)
Fixpoint save_plan (db : DataFrame) (dirs : gset string)
    (ks : list (pynum * pynum))
  : list ((string * string) * DataFrame) * result unit :=
  match ks with
  | [] => ([], Ok ())
  | k :: rest =>
      match month_slice db k with
      | Ok part =>
          if decide ((partition_path k).1 ∈ dirs) then
            ((partition_path k, part) :: (save_plan db dirs rest).1,
             (save_plan db dirs rest).2)
          else ([], Err OSError)
      | Err e => ([], Err e)
      end
  end.

(** The writes of a plan, carried out in order. *)
Definition write_all (w : list ((string * string) * DataFrame))
    (fs : gmap (string * string) DataFrame) : gmap (string * string) DataFrame :=
  foldl (λ fs pd, <[pd.1 := pd.2]> fs) fs w.

(** The first row of [db] whose id compares equal to [uuid]. *)
Definition first_row (db : DataFrame) (uuid : string) : option row :=
  head (filter (λ r, series_eq (cell ID r) (VStr uuid)) (rows db)).

(** [(date.year, date.month)] *)
Definition year_month (date : value) : result (pynum * pynum) :=
  y ← attr_year date; m ← attr_month date; Ok (y, m).

(** One turn of the loop of [_get_months_from_uuid]. *)
Definition month_of_uuid (db : DataFrame) (uuid : string)
  : result (pynum * pynum) :=
  ids ← getitem db ID;
  dates ← getitem (mask db ((λ x, series_eq x (VStr uuid)) <$> ids)) DATE;
  date ← iloc0 dates;
  year_month date.

(** A datetime, [NaT] included. *)
Definition datelike (v : value) : Prop :=
  match v with VTimestamp _ | VNaT => True | _ => False end.

(** The table has the columns the store reads and its date column holds
    datetimes. *)
Definition typed (db : DataFrame) : Prop :=
  ID ∈ columns db ∧ DATE ∈ columns db ∧
  Forall (λ r, datelike (cell DATE r)) (rows db).

(** The conversions of [_apply_dtypes], in order. *)
Definition dtype_steps : list ((value → result value) * string) :=
  [ (to_datetime, DATE); (astype_bool, RECONCILED); (astype_float, INFLOW);
    (astype_float, OUTFLOW); (astype_float, AMOUNT); (astype_category, CAT);
    (astype_category, ACCOUNT); (astype_bool, RECONCILED) ].

(** One conversion applied to one row. *)
Definition coerce_cell (fc : (value → result value) * string) (r : row)
  : result row :=
  v ← fc.1 (cell fc.2 r); Ok (<[fc.2 := v]> r).

(** A sequence of conversions applied to one row. *)
Fixpoint coerce_all (steps : list ((value → result value) * string)) (r : row)
  : result row :=
  match steps with
  | [] => Ok r
  | fc :: rest => r' ← coerce_cell fc r; coerce_all rest r'
  end.

(** A sequence of conversions applied to a frame, column by column. *)
Fixpoint convert_all (steps : list ((value → result value) * string))
    (df : DataFrame) : result DataFrame :=
  match steps with
  | [] => Ok df
  | fc :: rest => df' ← convert fc.1 fc.2 df; convert_all rest df'
  end.

(** The id column of a table. *)
Definition ids (db : DataFrame) : list value := cell ID <$> rows db.



(** The operations that change the store. *)
Inductive Op :=
| InsertData (df : DataFrame)
| InsertRecord (record : DbRecord)
| DeleteData (uuid_list : list string).

Definition call (op : Op) : M unit :=
  match op with
  | InsertData df => insert_data df
  | InsertRecord record => insert_record record
  | DeleteData uuid_list => delete_data uuid_list
  end.

(** The state an operation leaves behind, whether it returns or raises. *)
Definition exec (op : Op) (s : Store) : Store := (call op s).2.

Definition run (ops : list Op) (s : Store) : Store :=
  foldl (λ s op, exec op s) s ops.


(** The identifiers [_add_uuids] draws for a frame of [n] rows, and the
    frame it returns. *)
Definition new_uuids (s : Store) (n : nat) : list string :=
  create_uuid <$> seq (uuid_calls s) n.
Definition with_uuids (s : Store) (df : DataFrame) : DataFrame :=
  setitem df ID (VStr <$> new_uuids s (length (rows df))).

(** The identifiers an insertion brings are new to the table and distinct. *)
Definition op_fresh (s : Store) (op : Op) : Prop :=
  match op with
  | InsertData df =>
      let us := new_uuids s (length (rows df)) in
      NoDup us ∧ ∀ u, u ∈ us → VStr u ∉ ids (_db s)
  | InsertRecord record =>
      NoDup (ids (to_df record)) ∧
      ∀ v, v ∈ ids (to_df record) → v ∉ ids (_db s)
  | DeleteData _ => True
  end.



(** A condition holds of every operation of a run, in the state the
    operation starts from. *)
Fixpoint along (P : Store → Op → Prop) (s : Store) (ops : list Op) : Prop :=
  match ops with
  | [] => True
  | op :: rest => P s op ∧ along P (exec op s) rest
  end.



(** The scenario of the specification: a record dated 2023-03-15, payee
    "Store", amount 42.50. *)
Definition scenario_record : row :=
  list_to_map
    [ (DATE, VTimestamp {| year := 2023; month := 3; day := 15; time_ns := 0 |});
      (PAYEE, VStr "Store");
      (AMOUNT, VFloat 42.5) ].


(** The record with the other columns filled from the registry. *)
Definition scenario_df_defaults : DataFrame :=
  {| columns := get_mandatory_cols ++ get_non_mandatory_cols.*1;
     rows := [scenario_record ∪ list_to_map get_non_mandatory_cols] |}.

(** The row the scenario expects in the partition file. *)
Definition scenario_stored (uuid : string) : row :=
  list_to_map
    [ (ID, VStr uuid);
      (DATE, VTimestamp {| year := 2023; month := 3; day := 15; time_ns := 0 |});
      (PAYEE, VStr "Store");
      (CAT, VStr EmptyString);
      (MEMO, VStr EmptyString);
      (ACCOUNT, VFloat nan);
      (INFLOW, VFloat 0);
      (OUTFLOW, VFloat 0);
      (RECONCILED, VBool false);
      (AMOUNT, VFloat 42.5) ].

(** The columns [_apply_dtypes] reads and assigns. *)
Definition dtype_cols : list string :=
  [DATE; RECONCILED; INFLOW; OUTFLOW; AMOUNT; CAT; ACCOUNT].

(** A row that carries the dtypes of the schema: a datetime, a boolean,
    floats in the numeric columns, and categories that are not [None]. *)
Definition has_dtypes (r : row) : Prop :=
  (∃ v, r !! DATE = Some v ∧ datelike v) ∧
  (∃ b, r !! RECONCILED = Some (VBool b)) ∧
  (∀ c, c ∈ get_numeric_cols → ∃ f, r !! c = Some (VFloat f)) ∧
  (∀ c, c ∈ [CAT; ACCOUNT] → ∃ v, r !! c = Some v ∧ v ≠ VNone ∧ v ≠ VNaT).

End notions.

(** * Example data *)

(** Collaborators for the examples: identifiers [u0], [u1], ..., and a
    pandas that refuses every conversion the development leaves open (no
    example reaches one). *)
Definition seq_utils : Utils := {| create_uuid := λ n, "u" +:+ pretty n |}.
Definition strict_pandas : Pandas :=
  {| parse_datetime := λ _, Err ValueError;
     parse_float := λ _, Err ValueError;
     datetime_bool := λ _, Err TypeError |}.

(** A typed row, as [Record.to_df()] builds it. *)
Definition typed_row (uuid : string) (date : Timestamp) (payee : string)
    (amount : float) : row :=
  list_to_map
    [ (ID, VStr uuid); (DATE, VTimestamp date); (PAYEE, VStr payee);
      (CAT, VStr EmptyString); (MEMO, VStr EmptyString);
      (ACCOUNT, VFloat nan); (INFLOW, VFloat 0); (OUTFLOW, VFloat 0);
      (RECONCILED, VBool false); (AMOUNT, VFloat amount) ].

Definition make_record (uuid : string) (date : Timestamp) (payee : string)
    (amount : float) : DbRecord :=
  {| record_id := uuid;
     to_df := {| columns := get_db_col_vals;
                 rows := [typed_row uuid date payee amount] |} |}.

(** Record "X", dated 2022-01-10, and a second record that reuses its id,
    dated 2022-02-05. *)
Definition record_X : DbRecord :=
  make_record "X" {| year := 2022; month := 1; day := 10; time_ns := 0 |} "Shop" 10.

(** A store opened on a root with folders for 2022 and 2023 and no file,
    and the store holding record "X". *)
Definition year_folders : gset string := {[ "2022"; "2023" ]}.
Definition empty_store : Store := init year_folders ∅ 0.
Definition store_X : Store :=
  exec (U := seq_utils) (PD := strict_pandas) (InsertRecord record_X)
    empty_store.

Definition undated_df : DataFrame :=
  {| columns := get_mandatory_cols ++ get_non_mandatory_cols.*1;
     rows := [ <[DATE := VNone]>
                 (scenario_record ∪ list_to_map get_non_mandatory_cols) ] |}.

(** * Properties *)

(** ** Lists, masks and results *)

Lemma select_fmap {A} (p : A → bool) (l : list A) :
  select l (p <$> l) = filter (λ x, p x) l.
Proof.
  induction l as [|x l IH]; [done|]. cbn [fmap list_fmap select].
  rewrite filter_cons. destruct (p x); simpl; by rewrite IH.
Qed.


Lemma traverse_fmap {A B C} (f : B → result C) (g : A → B) (l : list A) :
  traverse f (g <$> l) = traverse (λ x, f (g x)) l.
Proof.
  induction l as [|x l IH]; [done|].
  change (traverse f (g <$> x :: l)) with
    (y ← f (g x); ys ← traverse f (g <$> l); Ok (y :: ys)).
  by rewrite IH.
Qed.

Lemma traverse_Ok {A B} (f : A → result B) (g : A → B) (l : list A) :
  Forall (λ x, f x = Ok (g x)) l → traverse f l = Ok (g <$> l).
Proof.
  induction 1 as [|x l Hx _ IH]; [done|]. simpl. by rewrite Hx, IH.
Qed.

Lemma traverse_Forall2 {A B} (f : A → result B) (l : list A) (k : list B) :
  traverse f l = Ok k ↔ Forall2 (λ x y, f x = Ok y) l k.
Proof.
  split.
  - revert k. induction l as [|x l IH]; intros k Hk; simpl in Hk.
    + by injection Hk as <-.
    + destruct (f x) as [y|] eqn:Hy; [|done]. simpl in Hk.
      destruct (traverse f l) as [ys|] eqn:Hys; [|done]. simpl in Hk.
      injection Hk as <-. constructor; auto.
  - induction 1 as [|x y l k Hxy _ IH]; [done|]. simpl. by rewrite Hxy, IH.
Qed.

Lemma traverse_bind {A B C} (f : A → result B) (g : B → result C) l k :
  traverse (λ x, y ← f x; g y) l = Ok k ↔
  ∃ m, traverse f l = Ok m ∧ traverse g m = Ok k.
Proof.
  setoid_rewrite traverse_Forall2. split.
  - induction 1 as [|x z l k Hxz _ (m & Hm & Hk)]; [by exists []|].
    destruct (f x) as [y|] eqn:Hy; [|done].
    exists (y :: m). split; constructor; auto.
  - intros (m & Hm & Hk). revert k Hk.
    induction Hm as [|x y l m Hxy _ IH]; intros k Hk.
    + inversion Hk. constructor.
    + inversion Hk as [|? z ? k' Hyz Hk']; subst. constructor; [|by apply IH].
      by rewrite Hxy.
Qed.

Lemma filter_all {A} (P : A → Prop) `{∀ x, Decision (P x)} (l : list A) :
  Forall P l → filter P l = l.
Proof.
  induction 1 as [|x l Hx _ IH]; [done|]. by rewrite filter_cons_True, IH.
Qed.

Lemma filter_none {A} (P : A → Prop) `{∀ x, Decision (P x)} (l : list A) :
  Forall (λ x, ¬ P x) l → filter P l = [].
Proof.
  induction 1 as [|x l Hx _ IH]; [done|]. by rewrite filter_cons_False.
Qed.


Section theory.
Context {U : Utils} {PD : Pandas}.

Lemma string_length_app (s t : string) :
  String.length (s +:+ t) = String.length s + String.length t.
Proof.
  induction s as [|a s IH]; [done|].
  change (String a s +:+ t) with (String a (s +:+ t)). simpl. by rewrite IH.
Qed.

Lemma string_app_inj_r (s1 s2 t : string) : s1 +:+ t = s2 +:+ t → s1 = s2.
Proof.
  revert s2. induction s1 as [|a s1 IH]; intros [|b s2] Heq.
  - done.
  - apply (f_equal String.length) in Heq.
    rewrite !string_length_app in Heq. simpl in Heq. lia.
  - apply (f_equal String.length) in Heq.
    rewrite !string_length_app in Heq. simpl in Heq. lia.
  - change (String a (s1 +:+ t) = String b (s2 +:+ t)) in Heq.
    injection Heq as -> Heq. f_equal. by apply IH.
Qed.

Lemma partition_path_inj (k1 k2 : Z * Z) :
  partition_path (int_key k1) = partition_path (int_key k2) → k1 = k2.
Proof.
  destruct k1 as [y1 m1], k2 as [y2 m2]. unfold partition_path, int_key. simpl.
  intros [= Hy Hm]. apply string_app_inj_r in Hm.
  apply (inj pretty) in Hy. apply (inj pretty) in Hm. by subst.
Qed.



Lemma save_db_plan ks s :
  save_db ks s =
  ((save_plan (_db s) (folders s) ks).2,
   {| _db := _db s; folders := folders s;
      files := write_all (save_plan (_db s) (folders s) ks).1 (files s);
      uuid_calls := uuid_calls s |}).
Proof.
  revert s. induction ks as [|k ks IH]; intros s.
  - by destruct s.
  - cbn [save_db save_plan]. unfold mbind, M_bind, get_db, lift.
    destruct (month_slice (_db s) k) as [part|e]; [|by destruct s].
    unfold to_parquet. case_decide; [|by destruct s].
    simpl. rewrite IH. done.
Qed.







(** Claim C9.  [disconnect] raises [NotImplementedError] in every state and
    leaves the table and the files as they were. *)
Theorem disconnect_unsupported (s : Store) :
  disconnect s = (Err NotImplementedError, s).
Proof. reflexivity. Qed.

Lemma mask_fmap (p : row → bool) db :
  mask db (p <$> rows db) =
  {| columns := columns db; rows := filter (λ r, p r) (rows db) |}.
Proof. unfold mask. by rewrite select_fmap. Qed.

Lemma getitem_Ok db c :
  c ∈ columns db → getitem db c = Ok (cell c <$> rows db).
Proof. intros. unfold getitem. by rewrite decide_True. Qed.

Lemma getitem_Err db c : c ∉ columns db → getitem db c = Err (KeyError c).
Proof. intros. unfold getitem. by rewrite decide_False. Qed.


Lemma months_loop_cons db uuid rest months :
  months_loop db (uuid :: rest) months =
  k ← month_of_uuid db uuid; months_loop db rest ({[ k ]} ∪ months).
Proof.
  cbn [months_loop]. unfold month_of_uuid, year_month.
  destruct (getitem db ID) as [ids|]; [|done]. simpl.
  destruct (getitem _ DATE) as [dates|]; [|done]. simpl.
  destruct (iloc0 dates) as [date|]; [|done]. simpl.
  destruct (attr_year date) as [y|]; [|done]. simpl.
  by destruct (attr_month date) as [m|].
Qed.

Lemma month_of_uuid_missing db uuid :
  first_row db uuid = None → ∃ e, month_of_uuid db uuid = Err e.
Proof.
  unfold first_row, month_of_uuid. intros Hnone.
  destruct (decide (ID ∈ columns db)) as [Hid|Hid];
    [rewrite getitem_Ok by done|rewrite getitem_Err by done; by eauto].
  simpl. rewrite <-list_fmap_compose, mask_fmap.
  destruct (decide (DATE ∈ columns db)) as [Hd|Hd];
    [rewrite getitem_Ok by done|rewrite getitem_Err by done; by eauto].
  simpl. unfold compose. destruct (filter _ (rows db)); [|done]. simpl. eauto.
Qed.

Lemma month_of_uuid_typed db uuid :
  ID ∈ columns db → DATE ∈ columns db →
  month_of_uuid db uuid =
  match first_row db uuid with
  | Some r => year_month (cell DATE r)
  | None => Err IndexError
  end.
Proof.
  intros Hid Hdate. unfold first_row, month_of_uuid.
  rewrite getitem_Ok by done. simpl.
  rewrite <-list_fmap_compose, mask_fmap. rewrite getitem_Ok by done. simpl.
  unfold compose. by destruct (filter _ (rows db)).
Qed.

Lemma months_loop_missing db uuid_lst months :
  Exists (λ u, first_row db u = None) uuid_lst →
  ∃ e, months_loop db uuid_lst months = Err e.
Proof.
  intros Hex. revert months.
  induction Hex as [u rest Hu|u rest _ IH]; intros months;
    rewrite months_loop_cons.
  - destruct (month_of_uuid_missing _ _ Hu) as [e ->]. eauto.
  - destruct (month_of_uuid db u); simpl; eauto.
Qed.

Lemma year_month_datelike v : datelike v → ∃ k, year_month v = Ok k.
Proof. destruct v; try done; eauto. Qed.

Lemma first_row_elem db u r : first_row db u = Some r →
  r ∈ rows db ∧ series_eq (cell ID r) (VStr u).
Proof.
  unfold first_row. intros Hh.
  assert (r ∈ filter (λ r, series_eq (cell ID r) (VStr u)) (rows db)) as Hr.
  { destruct (filter _ _); simplify_eq/=. by left. }
  apply list_elem_of_filter in Hr. tauto.
Qed.

Lemma months_loop_typed_missing db uuid_lst months :
  typed db →
  Exists (λ u, first_row db u = None) uuid_lst →
  months_loop db uuid_lst months = Err IndexError.
Proof.
  intros (Hid & Hdate & Hd) Hex. revert months.
  induction Hex as [u rest Hu|u rest _ IH]; intros months;
    rewrite months_loop_cons, month_of_uuid_typed by done.
  - by rewrite Hu.
  - destruct (first_row db u) as [r|] eqn:Hr; [|done].
    apply first_row_elem in Hr as [Hr _].
    rewrite Forall_forall in Hd.
    destruct (year_month_datelike _ (Hd r Hr)) as [k ->]. simpl. apply IH.
Qed.











Lemma delete_data_unfold uuid_list s :
  delete_data uuid_list s =
  match _get_months_from_uuid (_db s) uuid_list with
  | Err e => (Err e, s)
  | Ok months =>
      match getitem (_db s) ID with
      | Err e => (Err e, s)
      | Ok ids =>
          save_db months
            {| _db := mask (_db s) ((λ x, negb (isin uuid_list x)) <$> ids);
               folders := folders s; files := files s; uuid_calls := uuid_calls s |}
      end
  end.
Proof.
  unfold delete_data, mbind, M_bind, get_db, lift, set_db. simpl.
  destruct (_get_months_from_uuid (_db s) uuid_list); [|done].
  by destruct (getitem (_db s) ID).
Qed.

(** Claim C10.  If some id of the list matches no row, [delete_data]
    raises the exception that [_get_months_from_uuid] raises on the table
    as it stands, and leaves the table and the files unchanged; on a typed
    table the exception is [IndexError]. *)
Theorem delete_data_missing_id (uuid_list : list string) (s : Store)
    (Hmissing : Exists (λ u, first_row (_db s) u = None) uuid_list) :
  ∃ e, _get_months_from_uuid (_db s) uuid_list = Err e ∧
       delete_data uuid_list s = (Err e, s) ∧
       (typed (_db s) → e = IndexError).
Proof.
  destruct (months_loop_missing (_db s) uuid_list ∅ Hmissing) as [e He].
  exists e. rewrite delete_data_unfold. unfold _get_months_from_uuid.
  rewrite He. split_and!; [done..|].
  intros Ht. rewrite (months_loop_typed_missing _ _ _ Ht Hmissing) in He.
  congruence.
Qed.


(** *** Coercion, row by row *)

Lemma apply_dtypes_steps df : _apply_dtypes df = convert_all dtype_steps df.
Proof.
  unfold _apply_dtypes, dtype_steps. cbn [convert_all fst snd].
  repeat (destruct (convert _ _ _); simpl; [|done]). done.
Qed.

Lemma traverse_coerce_cell f c (rs : list row) :
  traverse (coerce_cell (f, c)) rs =
  vs ← traverse f (cell c <$> rs); Ok (zip_with (λ r v, <[c := v]> r) rs vs).
Proof.
  induction rs as [|r rs IH]; [done|].
  change (cell c <$> r :: rs) with (cell c r :: (cell c <$> rs)).
  cbn [traverse]. rewrite IH. unfold coerce_cell. simpl.
  destruct (f (cell c r)); simpl; [|done].
  by destruct (traverse f (cell c <$> rs)).
Qed.

Lemma convert_rows f c df :
  convert f c df =
  if decide (c ∈ columns df) then
    rs ← traverse (coerce_cell (f, c)) (rows df);
    Ok {| columns := columns df; rows := rs |}
  else Err (KeyError c).
Proof.
  unfold convert, getitem. rewrite traverse_coerce_cell.
  destruct (decide (c ∈ columns df)) as [Hc|Hc]; [|done]. simpl.
  destruct (traverse f _) as [vs|]; [|done]. simpl.
  unfold setitem. by rewrite decide_True.
Qed.

Lemma traverse_nil_steps (rs : list row) : traverse (coerce_all []) rs = Ok rs.
Proof. induction rs as [|r rs IH]; [done|]. cbn [traverse]. by rewrite IH. Qed.

Lemma convert_all_Ok steps df df' :
  convert_all steps df = Ok df' ↔
  Forall (λ fc, fc.2 ∈ columns df) steps ∧
  columns df' = columns df ∧
  traverse (coerce_all steps) (rows df) = Ok (rows df').
Proof.
  revert df. induction steps as [|[f c] steps IH]; intros df.
  - simpl. rewrite traverse_nil_steps. split.
    + intros [= <-]. by split_and!.
    + intros (_ & Hc & [= Hr]). destruct df, df'; simpl in *. by subst.
  - cbn [convert_all coerce_all fst snd]. rewrite convert_rows, Forall_cons.
    simpl. rewrite traverse_bind. destruct (decide (c ∈ columns df)) as [Hc|Hc].
    2:{ split; [done|]. by intros [[? _] _]. }
    destruct (traverse (coerce_cell (f, c)) (rows df)) as [rs|] eqn:Hrs; simpl.
    + rewrite IH. simpl. split.
      * intros (? & ? & ?). split_and!; eauto.
      * intros ([_ ?] & ? & (m & [= <-] & ?)). by split_and!.
    + split; [done|]. by intros (_ & _ & (m & ? & _)).
Qed.

Lemma coerce_all_other steps c r r' :
  Forall (λ fc, fc.2 ≠ c) steps →
  coerce_all steps r = Ok r' → r' !! c = r !! c.
Proof.
  intros Hne. revert r. induction Hne as [|[f c'] steps Hc _ IH]; intros r.
  - by intros [= <-].
  - cbn [coerce_all]. unfold coerce_cell. simpl in *.
    destruct (f (cell c' r)) as [v|]; [|done]. simpl.
    intros Hr'%IH. by rewrite Hr', lookup_insert_ne.
Qed.

Lemma union_columns_nil cs : union_columns [] cs = cs.
Proof.
  unfold union_columns. simpl. apply filter_all, Forall_forall.
  intros c _. apply not_elem_of_nil.
Qed.

Lemma elem_of_union_columns c cs ds :
  c ∈ union_columns cs ds ↔ c ∈ cs ∨ c ∈ ds.
Proof.
  unfold union_columns. rewrite elem_of_app, list_elem_of_filter.
  destruct (decide (c ∈ cs)); tauto.
Qed.

Lemma pd_concat_pair db df :
  pd_concat [db; df] =
  {| columns := union_columns (columns db) (columns df);
     rows := rows db ++ rows df |}.
Proof.
  unfold pd_concat. simpl. by rewrite union_columns_nil, app_nil_r.
Qed.



Global Instance VStr_inj : Inj (=) (=) VStr.
Proof. by intros ?? [=]. Qed.



Lemma save_db_from_uuid_unfold us s :
  save_db_from_uuid us s =
  match _get_months_from_uuid (_db s) us with
  | Ok months => save_db months s
  | Err e => (Err e, s)
  end.
Proof.
  unfold save_db_from_uuid, mbind, M_bind, get_db, lift. simpl.
  by destruct (_get_months_from_uuid (_db s) us).
Qed.



Lemma add_uuids_spec df s :
  _add_uuids df s =
  (Ok (with_uuids s df),
   {| _db := _db s; folders := folders s; files := files s;
      uuid_calls := uuid_calls s + length (rows df) |}).
Proof.
  unfold _add_uuids, with_uuids, new_uuids. by rewrite <-list_fmap_compose.
Qed.

Lemma ids_zip_insert (l : list row) (vs : list value) :
  length vs = length l →
  cell ID <$> zip_with (λ r v, <[ID := v]> r) l vs = vs.
Proof.
  revert vs. induction l as [|r l IH]; intros [|v vs] Hlen; try done.
  simpl in *. f_equal; [|apply IH; lia].
  unfold cell. by rewrite lookup_insert_eq.
Qed.

Lemma ids_with_uuids s df :
  ids (with_uuids s df) = VStr <$> new_uuids s (length (rows df)).
Proof.
  unfold ids, with_uuids, new_uuids. simpl. apply ids_zip_insert.
  by rewrite !length_fmap, length_seq.
Qed.

Lemma ID_in_with_uuids s df : ID ∈ columns (with_uuids s df).
Proof.
  unfold with_uuids, setitem. simpl. case_decide; [done|].
  apply elem_of_app. right. by left.
Qed.

Lemma apply_dtypes_Ok df df' :
  _apply_dtypes df = Ok df' →
  columns df' = columns df ∧ DATE ∈ columns df ∧ ids df' = ids df ∧
  traverse (coerce_all dtype_steps) (rows df) = Ok (rows df').
Proof.
  rewrite apply_dtypes_steps, convert_all_Ok. intros (Hcols & Hc & Hrows).
  split_and!; [done| |  |done].
  - apply Forall_cons in Hcols as [? _]. done.
  - apply traverse_Forall2 in Hrows. unfold ids.
    induction Hrows as [|r r' l l' Hr _ IH]; [done|]. simpl. f_equal; [|done].
    unfold cell. erewrite (coerce_all_other dtype_steps ID r r'); [done| |done].
    unfold dtype_steps. repeat constructor; done.
Qed.


Lemma insert_data_unfold df s :
  insert_data df s =
  let s1 := {| _db := _db s; folders := folders s; files := files s;
               uuid_calls := uuid_calls s + length (rows df) |} in
  match _apply_dtypes (with_uuids s df) with
  | Err e => (Err e, s1)
  | Ok df' =>
      let s2 := {| _db := pd_concat [_db s; df']; folders := folders s; files := files s;
                   uuid_calls := uuid_calls s + length (rows df) |} in
      match getitem df' ID with
      | Err e => (Err e, s2)
      | Ok ids => save_db_from_uuid (to_list ids) s2
      end
  end.
Proof.
  unfold insert_data, mbind at 1, M_bind at 1. rewrite add_uuids_spec.
  unfold mbind, M_bind, get_db, lift, set_db. simpl.
  destruct (_apply_dtypes (with_uuids s df)) as [df'|]; [|done]. simpl.
  by destruct (getitem df' ID).
Qed.

Lemma insert_record_unfold record s :
  insert_record record s =
  save_db_from_uuid [record_id record]
    {| _db := pd_concat [_db s; to_df record]; folders := folders s; files := files s;
       uuid_calls := uuid_calls s |}.
Proof. done. Qed.



Lemma not_isin_filter uuid_list (l : list row) :
  filter (λ r, ((λ x, negb (isin uuid_list x)) ∘ cell ID) r) l =
  filter (λ r, ¬ isin uuid_list (cell ID r)) l.
Proof.
  apply list_filter_iff. intros r. unfold compose. by rewrite negb_True.
Qed.



Lemma filter_ext_elem {A} (P Q : A → Prop) `{∀ x, Decision (P x)}
    `{∀ x, Decision (Q x)} (l : list A) :
  (∀ x, x ∈ l → P x ↔ Q x) → filter P l = filter Q l.
Proof.
  induction l as [|x l IH]; intros Hext; [done|].
  rewrite !filter_cons, IH by (intros; apply Hext; by right).
  destruct (decide (P x)) as [HP|HP], (decide (Q x)) as [HQ|HQ]; try done;
    destruct (Hext x); try (by left); tauto.
Qed.

Lemma NoDup_fmap_filter {A B} (f : A → B) (P : A → Prop)
    `{∀ x, Decision (P x)} (l : list A) :
  NoDup (f <$> l) → NoDup (f <$> filter P l).
Proof.
  intros Hnd. apply (sublist_NoDup _ (f <$> l)); [done|].
  apply fmap_sublist, sublist_filter.
Qed.

Lemma isin_VStr uuid_list v :
  isin uuid_list v → ∃ u, v = VStr u ∧ u ∈ uuid_list.
Proof.
  destruct v; try done. simpl. intros Hin%bool_decide_spec. eauto.
Qed.
















Lemma save_db_db ks s : _db (save_db ks s).2 = _db s.
Proof. by rewrite save_db_plan. Qed.

Lemma save_db_from_uuid_db us s : _db (save_db_from_uuid us s).2 = _db s.
Proof.
  rewrite save_db_from_uuid_unfold.
  destruct (_get_months_from_uuid (_db s) us); [apply save_db_db|done].
Qed.

Lemma ids_pd_concat db df : ids (pd_concat [db; df]) = ids db ++ ids df.
Proof. rewrite pd_concat_pair. unfold ids. simpl. by rewrite fmap_app. Qed.

Lemma insert_data_ids df df' s :
  _apply_dtypes (with_uuids s df) = Ok df' →
  ids (_db (insert_data df s).2) =
  ids (_db s) ++ (VStr <$> new_uuids s (length (rows df))).
Proof.
  intros Hdf'. rewrite insert_data_unfold, Hdf'. cbv zeta.
  destruct (apply_dtypes_Ok _ _ Hdf') as (_ & _ & Hids & _).
  rewrite ids_with_uuids in Hids.
  destruct (getitem df' ID); [rewrite save_db_from_uuid_db|]; simpl;
    by rewrite ids_pd_concat, Hids.
Qed.

Lemma NoDup_ids_app (l : list value) (vs : list value) :
  NoDup l → NoDup vs → (∀ v, v ∈ vs → v ∉ l) → NoDup (l ++ vs).
Proof.
  intros Hl Hvs Hdisj. apply NoDup_app. split_and!; [done| |done].
  intros v Hv Hv'. by apply (Hdisj v).
Qed.

Lemma exec_ids_NoDup op s :
  NoDup (ids (_db s)) → op_fresh s op → NoDup (ids (_db (exec op s))).
Proof.
  intros Hnd Hfresh. unfold exec.
  destruct op as [df|record|uuid_list]; simpl in *.
  - destruct Hfresh as [Hus Hfresh].
    destruct (_apply_dtypes (with_uuids s df)) as [df'|e] eqn:Hdf'.
    + rewrite (insert_data_ids _ _ _ Hdf'). apply NoDup_ids_app; [done| |].
      * by apply (NoDup_fmap_2 _).
      * intros v (u & -> & Hu)%list_elem_of_fmap. by apply Hfresh.
    + by rewrite insert_data_unfold, Hdf'.
  - destruct Hfresh as [Hus Hfresh].
    rewrite insert_record_unfold, save_db_from_uuid_db. simpl.
    rewrite ids_pd_concat. by apply NoDup_ids_app.
  - rewrite delete_data_unfold.
    destruct (_get_months_from_uuid _ _); [|done].
    destruct (getitem (_db s) ID) as [idcol|] eqn:Hcol; [|done].
    rewrite save_db_db. simpl. unfold getitem in Hcol.
    case_decide; [|done]. injection Hcol as <-.
    rewrite <-list_fmap_compose, mask_fmap. by apply NoDup_fmap_filter.
Qed.

(** Claim C5, amended.  Along any run in which each insertion brings ids
    that are distinct and new to the table, no two rows of the table share
    an id.  [insert_data] gives the rows it appends the ids [create_uuid]
    generates, whatever id column the caller's frame had; [insert_record]
    appends the ids of the record's own frame. *)
Theorem ids_unique_along_fresh_inserts (s : Store) (ops : list Op)
    (Hunique : NoDup (ids (_db s))) (Hfresh : along op_fresh s ops) :
  NoDup (ids (_db (run ops s))) ∧
  (∀ s df df', _apply_dtypes (with_uuids s df) = Ok df' →
     ids (_db (exec (InsertData df) s)) =
     ids (_db s) ++ (VStr <$> new_uuids s (length (rows df)))) ∧
  (∀ s record,
     ids (_db (exec (InsertRecord record) s)) =
     ids (_db s) ++ ids (to_df record)).
Proof.
  split_and!.
  - revert s Hunique Hfresh. induction ops as [|op ops IH]; intros s Hnd Hops;
      [done|].
    destruct Hops as [Hop Hops]. simpl. apply IH; [|done].
    by apply exec_ids_NoDup.
  - intros s' df df'. apply insert_data_ids.
  - intros s' record. unfold exec. cbn [call].
    rewrite insert_record_unfold, save_db_from_uuid_db. cbn [_db].
    apply ids_pd_concat.
Qed.


Lemma astype_bool_VBool v w : astype_bool v = Ok w → ∃ b, w = VBool b.
Proof.
  destruct v; simpl; try (intros [= <-]; eauto).
  - destruct (datetime_bool _); simpl; intros [= <-]; eauto.
  - destruct (datetime_bool _); simpl; intros [= <-]; eauto.
Qed.

Lemma coerce_all_cons fc rest (r r' : row) :
  coerce_all (fc :: rest) r = Ok r' ↔
  ∃ v, fc.1 (cell fc.2 r) = Ok v ∧ coerce_all rest (<[fc.2 := v]> r) = Ok r'.
Proof.
  cbn [coerce_all]. unfold coerce_cell.
  destruct (fc.1 (cell fc.2 r)) as [v|]; simpl.
  - split; [eauto|]. by intros (? & [= <-] & ?).
  - split; [done|]. by intros (? & ? & _).
Qed.





Lemma head_None_nil {A} (l : list A) : head l = None → l = [].
Proof. by destruct l. Qed.

Lemma first_row_None_isin db uuid r :
  first_row db uuid = None → r ∈ rows db → ¬ isin [uuid] (cell ID r).
Proof.
  unfold first_row. intros Hnone Hr (u & Hu & Hin)%isin_VStr.
  apply list_elem_of_singleton in Hin as ->.
  apply head_None_nil in Hnone.
  assert (r ∈ filter (λ r, series_eq (cell ID r) (VStr uuid)) (rows db)) as Hin.
  { apply list_elem_of_filter. split; [|done]. rewrite Hu. simpl.
    by rewrite bool_decide_true. }
  rewrite Hnone in Hin. by apply elem_of_nil in Hin.
Qed.


Lemma insert_data_db df df' s :
  _apply_dtypes (with_uuids s df) = Ok df' →
  _db (insert_data df s).2 = pd_concat [_db s; df'].
Proof.
  intros Hdf'. rewrite insert_data_unfold, Hdf'. cbv zeta.
  by destruct (getitem df' ID); [rewrite save_db_from_uuid_db|].
Qed.






End theory.

(** * Further properties of the store *)

Section coverage.
Context {U : Utils} {PD : Pandas}.

(** ** Opening the store *)






(** Property X2.  A store opened on a root without files has a table
    without columns: every lookup by id, every deletion, every filter on a
    column and every save of a month raises [KeyError], and leaves the
    store as it was. *)
Theorem fresh_store_raises_KeyError (dirs : gset string) (n : nat) :
  let s := init dirs ∅ n in
  (∀ uuid_list, get_data_by_id (_db s) uuid_list = Err (KeyError ID)) ∧
  (∀ uuid_list, delete_data uuid_list s = (Err (KeyError ID), s)) ∧
  (∀ uuid rest,
     save_db_from_uuid (uuid :: rest) s = (Err (KeyError ID), s)) ∧
  (∀ k rest, save_db (k :: rest) s = (Err (KeyError DATE), s)) ∧
  (∀ col val rest,
     get_data_by_col_val (_db s) ((col, val) :: rest) = Err (KeyError col)).
Proof.
  split_and!.
  - done.
  - intros [|u l]; rewrite delete_data_unfold; done.
  - intros u l. by rewrite save_db_from_uuid_unfold.
  - done.
  - done.
Qed.

(** ** Paths *)

(** Property X3.  The file of a month is [<year>/<month>.pq], both numbers
    in decimal without padding, and two months share a file only if they
    are the same month. *)
Theorem partition_path_one_per_month (k1 k2 : Z * Z) :
  partition_path (int_key k1) = (pretty k1.1, pretty k1.2 +:+ ".pq") ∧
  (partition_path (int_key k1) = partition_path (int_key k2) ↔ k1 = k2).
Proof.
  split; [done|]. split; [apply partition_path_inj|by intros ->].
Qed.

(** ** Saving *)

Lemma save_plan_paths db dirs ks :
  (save_plan db dirs ks).1.*1 ⊆ partition_path <$> ks.
Proof.
  induction ks as [|k ks IH]; [done|]. cbn [save_plan].
  destruct (month_slice db k); [|apply list_subseteq_nil].
  case_decide; [|apply list_subseteq_nil].
  cbn [fst fmap list_fmap]. intros p [->|Hp]%elem_of_cons; [by left|].
  right. by apply IH.
Qed.

Lemma write_all_lookup_other w fs p :
  p ∉ w.*1 → write_all w fs !! p = fs !! p.
Proof.
  revert fs. induction w as [|[q df] w IH]; intros fs Hp; [done|].
  apply not_elem_of_cons in Hp as [Hne Hp]. simpl in Hne.
  unfold write_all. simpl. fold (write_all w (<[q := df]> fs)).
  rewrite IH by done. by rewrite lookup_insert_ne.
Qed.

Lemma write_all_dom w fs p :
  is_Some (fs !! p) → is_Some (write_all w fs !! p).
Proof.
  revert fs. induction w as [|[q df] w IH]; intros fs Hp; [done|].
  unfold write_all. simpl. fold (write_all w (<[q := df]> fs)).
  apply IH. destruct (decide (q = p)) as [->|].
  - by rewrite lookup_insert_eq.
  - by rewrite lookup_insert_ne.
Qed.

Lemma save_db_untouched ks s :
  let s' := (save_db ks s).2 in
  _db s' = _db s ∧ folders s' = folders s ∧ uuid_calls s' = uuid_calls s ∧
  (∀ p, p ∉ partition_path <$> ks → files s' !! p = files s !! p) ∧
  (∀ p, is_Some (files s !! p) → is_Some (files s' !! p)).
Proof.
  rewrite save_db_plan. simpl. split_and!; try done.
  - intros p Hp. apply write_all_lookup_other.
    intros Hin. apply Hp. by eapply save_plan_paths.
  - intros p. apply write_all_dom.
Qed.

(** Property X4.  Whether it returns or raises, [save_db] changes nothing
    but the files of the months it is given: the table, the folders and the
    identifier counter are as before, every file of another month is as
    before, and no file is removed. *)
Theorem save_db_frame (months_to_save : list (pynum * pynum)) (s : Store) :
  let s' := (save_db months_to_save s).2 in
  _db s' = _db s ∧ folders s' = folders s ∧ uuid_calls s' = uuid_calls s ∧
  (∀ p, p ∉ partition_path <$> months_to_save →
        files s' !! p = files s !! p) ∧
  (∀ p, is_Some (files s !! p) → is_Some (files s' !! p)).
Proof. apply save_db_untouched. Qed.

Lemma save_db_concat (ks1 ks2 : list (pynum * pynum)) (s : Store) :
  save_db (ks1 ++ ks2) s =
  match save_db ks1 s with
  | (Ok _, s') => save_db ks2 s'
  | (Err e, s') => (Err e, s')
  end.
Proof.
  revert s. induction ks1 as [|k ks1 IH]; intros s; [done|].
  cbn [app save_db]. unfold mbind, M_bind, get_db, lift.
  destruct (month_slice (_db s) k) as [part|e]; [|done].
  destruct (to_parquet part (partition_path k) s) as [[[]|e] s1]; [|done].
  apply IH.
Qed.

(** Property X5.  Saving a list of months is saving its parts one after
    the other: the second part is saved from the state the first part
    left, and is not started when the first part raised. *)
Theorem save_db_app (ks1 ks2 : list (pynum * pynum)) (s : Store) :
  save_db (ks1 ++ ks2) s =
  match save_db ks1 s with
  | (Ok _, s') => save_db ks2 s'
  | (Err e, s') => (Err e, s')
  end.
Proof. apply save_db_concat. Qed.





(** ** Lookups *)

Lemma isin_series_eq uuid_list (v : value) :
  isin uuid_list v ↔ ∃ u, u ∈ uuid_list ∧ v = VStr u.
Proof.
  destruct v; simpl; try (split; [done|by intros (? & ? & ?)]).
  rewrite bool_decide_spec. split; [eauto|]. by intros (? & ? & [= ->]).
Qed.

(** Property X8.  On a table with an id column [get_data_by_id] never
    raises: it returns the table's columns and, in the table's order, the
    rows whose id is one of the strings of the list.  Ids that match no
    row are passed over, an id that occurs twice in the list selects its
    rows once, and the empty list selects no row.  Without an id column
    it raises [KeyError]. *)
Theorem get_data_by_id_selects (db : DataFrame) (uuid_list : list string) :
  (ID ∈ columns db →
   get_data_by_id db uuid_list =
   Ok {| columns := columns db;
         rows := filter (λ r, isin uuid_list (cell ID r)) (rows db) |}) ∧
  (∀ v, isin uuid_list v ↔ ∃ u, u ∈ uuid_list ∧ v = VStr u) ∧
  (ID ∈ columns db → Forall (λ u, first_row db u = None) uuid_list →
   get_data_by_id db uuid_list = Ok {| columns := columns db; rows := [] |}) ∧
  (ID ∉ columns db → get_data_by_id db uuid_list = Err (KeyError ID)).
Proof.
  assert (ID ∈ columns db →
          get_data_by_id db uuid_list =
          Ok {| columns := columns db;
                rows := filter (λ r, isin uuid_list (cell ID r)) (rows db) |})
    as Hsel.
  { intros Hid. unfold get_data_by_id. rewrite getitem_Ok by done. simpl.
    by rewrite <-list_fmap_compose, mask_fmap. }
  split_and!.
  - done.
  - apply isin_series_eq.
  - intros Hid Hnone. rewrite Hsel by done. do 2 f_equal.
    apply filter_none, Forall_forall. intros r Hr.
    intros (u & Hu & Hcell)%isin_series_eq.
    rewrite Forall_forall in Hnone.
    apply (first_row_None_isin db u r); [by apply Hnone|done|].
    rewrite Hcell. simpl. rewrite bool_decide_true; [done|by left].
  - intros Hid. unfold get_data_by_id. by rewrite getitem_Err.
Qed.

Lemma get_data_by_col_val_filter db col_val_dict :
  Forall (λ cv, cv.1 ∈ columns db) col_val_dict →
  get_data_by_col_val db col_val_dict =
  Ok {| columns := columns db;
        rows := filter (λ r, Forall (λ cv, series_eq (cell cv.1 r) cv.2)
                                    col_val_dict) (rows db) |}.
Proof.
  revert db. induction col_val_dict as [|[col val] rest IH]; intros db Hcols.
  - simpl. destruct db as [cs rs]. simpl.
    by rewrite filter_all by (apply Forall_forall; constructor).
  - apply Forall_cons in Hcols as [Hcol Hrest]. simpl in Hcol.
    cbn [get_data_by_col_val]. rewrite getitem_Ok by done. simpl.
    rewrite <-list_fmap_compose, mask_fmap. rewrite IH by done. simpl.
    f_equal. f_equal. rewrite list_filter_filter. apply list_filter_iff.
    intros r. rewrite Forall_cons. simpl. tauto.
Qed.

(** Property X9.  [get_data_by_col_val] raises [KeyError] on the first key
    of the dict that is not a column of the table, whatever the keys after
    it and however many rows the filters before it left. *)
Theorem get_data_by_col_val_missing_key (db : DataFrame)
    (before after : list (string * value)) (col : string) (val : value)
    (Hbefore : Forall (λ cv, cv.1 ∈ columns db) before)
    (Hcol : col ∉ columns db) :
  get_data_by_col_val db (before ++ (col, val) :: after) = Err (KeyError col).
Proof.
  revert db Hbefore Hcol.
  induction before as [|[c v] before IH]; intros db Hbefore Hcol.
  - cbn [app get_data_by_col_val]. by rewrite getitem_Err.
  - apply Forall_cons in Hbefore as [Hc Hbefore]. simpl in Hc.
    cbn [app get_data_by_col_val]. rewrite getitem_Ok by done. simpl.
    by apply IH.
Qed.

(** Property X10.  Filters compose and commute: filtering by two dicts
    one after the other is filtering by their concatenation, and, when the
    keys are columns of the table, the order of the entries of the dict
    does not change the result. *)
Theorem get_data_by_col_val_compose (db : DataFrame)
    (d1 d2 : list (string * value)) :
  get_data_by_col_val db (d1 ++ d2) =
    (db' ← get_data_by_col_val db d1; get_data_by_col_val db' d2) ∧
  (Forall (λ cv, cv.1 ∈ columns db) d1 → d1 ≡ₚ d2 →
   get_data_by_col_val db d1 = get_data_by_col_val db d2).
Proof.
  split.
  - revert db. induction d1 as [|[c v] d1 IH]; intros db; [done|].
    cbn [app get_data_by_col_val]. destruct (getitem db c); [|done].
    simpl. apply IH.
  - intros Hcols Hperm.
    rewrite !get_data_by_col_val_filter by (by rewrite <-?Hperm).
    do 2 f_equal. apply list_filter_iff. intros r. by rewrite Hperm.
Qed.

Lemma eqb_nan_r (a : float) : PrimFloat.eqb a nan = false.
Proof.
  rewrite FloatAxioms.eqb_spec. unfold SFeqb.
  replace (Prim2SF nan) with S754_nan by reflexivity.
  unfold SFcompare. by destruct (Prim2SF a) as [| | |[] ? ?].
Qed.

Lemma series_eq_missing (x val : value) :
  val = VNone ∨ val = VNaT ∨ val = VFloat nan → series_eq x val = false.
Proof.
  intros [->|[->| ->]]; destruct x; simpl; try done; apply eqb_nan_r.
Qed.

(** Property X11.  A filter on a missing value matches no row: asking for
    the rows whose cell equals [None], [NaT] or [NaN] returns the table's
    columns and no row, also when cells of that column are missing. *)
Theorem get_data_by_col_val_missing_value (db : DataFrame) (col : string)
    (val : value) (rest : list (string * value))
    (Hcol : col ∈ columns db)
    (Hrest : Forall (λ cv, cv.1 ∈ columns db) rest)
    (Hval : val = VNone ∨ val = VNaT ∨ val = VFloat nan) :
  get_data_by_col_val db ((col, val) :: rest) =
  Ok {| columns := columns db; rows := [] |}.
Proof.
  rewrite get_data_by_col_val_filter by (by constructor).
  do 2 f_equal. apply filter_none, Forall_forall. intros r _.
  rewrite Forall_cons. simpl. rewrite series_eq_missing by done.
  by intros [? _].
Qed.

(** ** Coercion *)

Lemma to_datetime_datelike v w : to_datetime v = Ok w → datelike w.
Proof.
  assert (∀ w, (o ← parse_datetime v;
                Ok (match o with Some t => VTimestamp t | None => VNaT end))
               = Ok w → datelike w) as Hparsed.
  { intros w'. destruct (parse_datetime v) as [[t|]|]; simpl; [| |done];
      by intros [= <-]. }
  destruct v; simpl; try (by intros [= <-]); try apply Hparsed.
  destruct (PrimFloat.is_nan f); [by intros [= <-]|apply Hparsed].
Qed.

Lemma astype_float_VFloat v w : astype_float v = Ok w → ∃ f, w = VFloat f.
Proof.
  destruct v; simpl; try done; try (intros [= <-]; eauto).
  - destruct (is_inf _); [done|]. intros [= <-]. eauto.
  - destruct (parse_float s); simpl; [|done]. intros [= <-]. eauto.
Qed.

Lemma astype_category_not_None v w :
  astype_category v = Ok w → w ≠ VNone ∧ w ≠ VNaT.
Proof. destruct v; simpl; intros [= <-]; done. Qed.

Lemma to_datetime_fixed v : datelike v → to_datetime v = Ok v.
Proof. by destruct v. Qed.

Lemma astype_category_fixed v :
  v ≠ VNone → v ≠ VNaT → astype_category v = Ok v.
Proof. by destruct v. Qed.

Lemma coerce_all_has_dtypes (r r' : row) :
  coerce_all dtype_steps r = Ok r' → has_dtypes r'.
Proof.
  unfold dtype_steps. intros H.
  apply coerce_all_cons in H as (v1 & H1 & H).
  apply coerce_all_cons in H as (v2 & H2 & H).
  apply coerce_all_cons in H as (v3 & H3 & H).
  apply coerce_all_cons in H as (v4 & H4 & H).
  apply coerce_all_cons in H as (v5 & H5 & H).
  apply coerce_all_cons in H as (v6 & H6 & H).
  apply coerce_all_cons in H as (v7 & H7 & H).
  apply coerce_all_cons in H as (v8 & H8 & H).
  cbn [fst snd coerce_all] in *. injection H as <-.
  apply to_datetime_datelike in H1.
  apply astype_bool_VBool in H8 as [b8 ->].
  apply astype_float_VFloat in H3 as [f3 ->].
  apply astype_float_VFloat in H4 as [f4 ->].
  apply astype_float_VFloat in H5 as [f5 ->].
  apply astype_category_not_None in H6 as [? ?].
  apply astype_category_not_None in H7 as [? ?].
  unfold has_dtypes, get_numeric_cols. split_and!.
  - exists v1. by rewrite !lookup_insert_ne, lookup_insert_eq by done.
  - exists b8. by rewrite lookup_insert_eq.
  - intros c Hc. repeat apply elem_of_cons in Hc as [->|Hc];
      [exists f3|exists f4|exists f5|by apply elem_of_nil in Hc];
      by rewrite !lookup_insert_ne, lookup_insert_eq by done.
  - intros c Hc. repeat apply elem_of_cons in Hc as [->|Hc];
      [exists v6|exists v7|by apply elem_of_nil in Hc];
      by rewrite !lookup_insert_ne, lookup_insert_eq by done.
Qed.

Lemma coerce_all_fixed (r : row) :
  has_dtypes r → coerce_all dtype_steps r = Ok r.
Proof.
  intros ((v1 & Hv1 & Hd) & (b & Hb) & Hnum & Hcat).
  destruct (Hnum INFLOW) as [f3 Hf3]; [set_solver|].
  destruct (Hnum OUTFLOW) as [f4 Hf4]; [set_solver|].
  destruct (Hnum AMOUNT) as [f5 Hf5]; [set_solver|].
  destruct (Hcat CAT) as (v6 & Hv6 & ? & ?); [set_solver|].
  destruct (Hcat ACCOUNT) as (v7 & Hv7 & ? & ?); [set_solver|].
  unfold dtype_steps. cbn [coerce_all]. unfold coerce_cell, cell. cbn [fst snd].
  rewrite Hv1. simpl. rewrite to_datetime_fixed by done. simpl.
  rewrite (insert_id _ _ _ Hv1), Hb. simpl.
  rewrite (insert_id _ _ _ Hb), Hf3. simpl.
  rewrite (insert_id _ _ _ Hf3), Hf4. simpl.
  rewrite (insert_id _ _ _ Hf4), Hf5. simpl.
  rewrite (insert_id _ _ _ Hf5), Hv6. simpl.
  rewrite astype_category_fixed by done. simpl.
  rewrite (insert_id _ _ _ Hv6), Hv7. simpl.
  rewrite astype_category_fixed by done. simpl.
  rewrite (insert_id _ _ _ Hv7), Hb. simpl.
  by rewrite (insert_id _ _ _ Hb).
Qed.

Lemma dtype_steps_cols : dtype_steps.*2 ≡ₚ RECONCILED :: dtype_cols.
Proof.
  unfold dtype_steps, dtype_cols. cbn [fmap list_fmap snd].
  change ([DATE; RECONCILED; INFLOW; OUTFLOW; AMOUNT; CAT; ACCOUNT; RECONCILED])
    with ([DATE; RECONCILED; INFLOW; OUTFLOW; AMOUNT; CAT; ACCOUNT] ++ [RECONCILED]).
  by rewrite <-Permutation_cons_append.
Qed.

Lemma dtype_steps_present (cs : list string) :
  Forall (λ fc : (value → result value) * string, fc.2 ∈ cs) dtype_steps ↔
  dtype_cols ⊆ cs.
Proof.
  trans (Forall (λ c, c ∈ cs) dtype_steps.*2); [by rewrite Forall_fmap|].
  rewrite dtype_steps_cols, Forall_cons, Forall_forall.
  unfold dtype_cols. set_solver.
Qed.

(** Property X12.  When [_apply_dtypes] returns, the frame has the
    columns and the rows it had, row for row; every row now holds a
    datetime in the date column, a boolean in the reconciled column, a
    float in each numeric column of the registry, and a category that is
    not [None] in the category and account columns; and the cells of all
    other columns (id, payee and memo among them) are as they were. *)
Theorem apply_dtypes_types_and_frame (df df' : DataFrame)
    (Hrun : _apply_dtypes df = Ok df') :
  columns df' = columns df ∧ dtype_cols ⊆ columns df ∧
  Forall2 (λ r r', has_dtypes r' ∧ ∀ c, c ∉ dtype_cols → r' !! c = r !! c)
          (rows df) (rows df').
Proof.
  rewrite apply_dtypes_steps, convert_all_Ok in Hrun.
  destruct Hrun as (Hcols & Hc & Hrows). split_and!; [done| |].
  - by apply dtype_steps_present.
  - apply traverse_Forall2 in Hrows. eapply Forall2_impl; [exact Hrows|].
    intros r r' Hr. cbv beta in Hr.
    split; [exact (coerce_all_has_dtypes _ _ Hr)|].
    intros c Hc'. eapply coerce_all_other; [|exact Hr].
    apply (Forall_fmap snd (λ c', c' ≠ c)). rewrite dtype_steps_cols.
    apply Forall_forall. intros c'' Hin <-. apply Hc'.
    apply elem_of_cons in Hin as [->|?]; [|done]. unfold dtype_cols. set_solver.
Qed.

Lemma apply_dtypes_fixed df :
  dtype_cols ⊆ columns df → Forall has_dtypes (rows df) →
  _apply_dtypes df = Ok df.
Proof.
  intros Hcols Hrows. rewrite apply_dtypes_steps. apply convert_all_Ok.
  split_and!; [by apply dtype_steps_present|done|].
  apply traverse_Forall2. induction Hrows as [|r rs Hr _ IH]; constructor;
    [by apply coerce_all_fixed|done].
Qed.

(** Property X13.  Coercion is idempotent: a frame that has the typed
    columns and whose rows carry the dtypes of the schema is returned as
    it is, and so is every frame [_apply_dtypes] has returned. *)
Theorem apply_dtypes_idempotent (df df' : DataFrame) :
  (dtype_cols ⊆ columns df → Forall has_dtypes (rows df) →
   _apply_dtypes df = Ok df) ∧
  (_apply_dtypes df = Ok df' → _apply_dtypes df' = Ok df').
Proof.
  split; [apply apply_dtypes_fixed|]. intros Hrun.
  rewrite apply_dtypes_steps, convert_all_Ok in Hrun.
  destruct Hrun as (Hcols & Hc & Hrows).
  apply apply_dtypes_fixed.
  - rewrite Hc. by apply dtype_steps_present.
  - apply traverse_Forall2 in Hrows. apply Forall_forall. intros r' Hr'.
    apply list_elem_of_lookup in Hr' as [i Hi].
    destruct (Forall2_lookup_r _ _ _ _ _ Hrows Hi) as (r & _ & Hr).
    by eapply coerce_all_has_dtypes.
Qed.

(** Property X14.  [insert_data] is all or nothing as far as coercion
    goes: when [_apply_dtypes] raises, [insert_data] raises the same
    exception and leaves the table, the folders and the files as they
    were.  This is what happens whenever the frame lacks one of the typed
    columns; without a date column the exception is [KeyError('date')]. *)
Theorem insert_data_coercion_failure (df : DataFrame) (s : Store) :
  let out := insert_data df s in
  (∀ e, _apply_dtypes (with_uuids s df) = Err e →
        out.1 = Err e ∧ _db out.2 = _db s ∧ folders out.2 = folders s ∧
        files out.2 = files s) ∧
  (∀ c, c ∈ dtype_cols → c ∉ columns df →
        ∃ e, _apply_dtypes (with_uuids s df) = Err e) ∧
  (DATE ∉ columns df →
   _apply_dtypes (with_uuids s df) = Err (KeyError DATE)).
Proof.
  assert (∀ c, c ∈ dtype_cols → c ∉ columns df →
               c ∉ columns (with_uuids s df)) as Hcols.
  { intros c Hc Hn. unfold with_uuids, setitem. simpl.
    case_decide; [done|]. rewrite elem_of_app, list_elem_of_singleton.
    intros [?| ->]; [done|]. unfold dtype_cols in Hc. set_solver. }
  split_and!.
  - intros e He. by rewrite insert_data_unfold, He.
  - intros c Hc Hn.
    destruct (_apply_dtypes (with_uuids s df)) as [df'|e] eqn:Hrun; [|eauto].
    rewrite apply_dtypes_steps, convert_all_Ok in Hrun.
    destruct Hrun as (Hall%dtype_steps_present & _).
    destruct (Hcols c Hc Hn). by apply Hall.
  - intros Hn. unfold _apply_dtypes, convert.
    rewrite getitem_Err; [done|]. apply Hcols; [|done].
    unfold dtype_cols. set_solver.
Qed.

(** ** The caller's frame *)

Lemma convert_inplace_spec f c df :
  convert_inplace f c df =
  match convert f c df with
  | Ok df' => (Ok (), df')
  | Err e => (Err e, df)
  end.
Proof.
  unfold convert_inplace, convert. destruct (getitem df c); [|done]. simpl.
  by destruct (traverse f _).
Qed.

Lemma convert_columns f c df df' :
  convert f c df = Ok df' →
  columns df' = columns df ∧ length (rows df') = length (rows df).
Proof.
  rewrite convert_rows. case_decide; [|done].
  destruct (traverse _ _) as [rs|] eqn:Hrs; [|done]. intros [= <-]. simpl.
  split; [done|]. apply traverse_Forall2 in Hrs.
  symmetry. by eapply Forall2_length.
Qed.

(** Property X15.  [_apply_dtypes] works on the caller's frame.  When it
    returns, the caller's frame is the frame returned; when it raises, the
    caller's frame keeps its columns and its number of rows but holds the
    conversions made before the failure: a frame with a date column and no
    reconciled column is left with its dates converted.  So after
    [insert_data] has returned, the frame the caller passed is the frame
    that was appended to the table, generated ids included. *)
Theorem apply_dtypes_in_place (df : DataFrame) :
  (∀ df', _apply_dtypes df = Ok df' ↔
          _apply_dtypes_inplace df = (Ok (), df')) ∧
  (∀ e, _apply_dtypes df = Err e ↔ (_apply_dtypes_inplace df).1 = Err e) ∧
  columns (_apply_dtypes_inplace df).2 = columns df ∧
  length (rows (_apply_dtypes_inplace df).2) = length (rows df) ∧
  (∀ dates, RECONCILED ∉ columns df →
     convert to_datetime DATE df = Ok dates →
     _apply_dtypes_inplace df = (Err (KeyError RECONCILED), dates)) ∧
  (∀ s df', _apply_dtypes_inplace (with_uuids s df) = (Ok (), df') →
     _db (insert_data df s).2 = pd_concat [_db s; df'] ∧
     ids df' = VStr <$> new_uuids s (length (rows df))).
Proof.
  assert (∀ (m : InPlace unit) f c df0,
            (convert_inplace f c;; m) df0 =
            match convert f c df0 with
            | Ok df1 => m df1
            | Err e => (Err e, df0)
            end) as Hstep.
  { intros m f c df0. unfold mbind, InPlace_bind.
    rewrite convert_inplace_spec. by destruct (convert f c df0). }
  unfold _apply_dtypes_inplace, _apply_dtypes.
  split_and!.
  - intros df'.
    do 7 (rewrite Hstep; destruct (convert _ _ _) as [?|?]; simpl;
          [|split; intros [=]]).
    rewrite convert_inplace_spec.
    destruct (convert _ _ _) as [?|?]; simpl; [|split; intros [=]].
    split; by intros [= <-].
  - intros e.
    do 7 (rewrite Hstep; destruct (convert _ _ _) as [?|?]; simpl;
          [|split; by intros [= <-]]).
    rewrite convert_inplace_spec.
    destruct (convert _ _ _) as [?|?]; simpl; [|split; by intros [= <-]].
    split; intros [=].
  - do 7 (rewrite Hstep;
          lazymatch goal with
          | |- context [match convert ?f ?c ?d with _ => _ end] =>
              destruct (convert f c d) as [?|?] eqn:Hconv;
              [apply convert_columns in Hconv as [? _]|cbn [snd]; congruence]
          end).
    rewrite convert_inplace_spec.
    lazymatch goal with
    | |- context [match convert ?f ?c ?d with _ => _ end] =>
        destruct (convert f c d) as [?|?] eqn:Hconv;
        [apply convert_columns in Hconv as [? _]|]; cbn [snd]; congruence
    end.
  - do 7 (rewrite Hstep;
          lazymatch goal with
          | |- context [match convert ?f ?c ?d with _ => _ end] =>
              destruct (convert f c d) as [?|?] eqn:Hconv;
              [apply convert_columns in Hconv as [_ ?]|cbn [snd]; congruence]
          end).
    rewrite convert_inplace_spec.
    lazymatch goal with
    | |- context [match convert ?f ?c ?d with _ => _ end] =>
        destruct (convert f c d) as [?|?] eqn:Hconv;
        [apply convert_columns in Hconv as [_ ?]|]; cbn [snd]; congruence
    end.
  - intros dates Hn Hdates. rewrite Hstep, Hdates, Hstep.
    destruct (convert_columns _ _ _ _ Hdates) as [Hc _].
    unfold convert at 1. rewrite getitem_Err by (by rewrite Hc). done.
  - intros s df' Hrun.
    assert (_apply_dtypes (with_uuids s df) = Ok df') as Hdf'.
    { revert Hrun. unfold _apply_dtypes.
      do 7 (rewrite Hstep; destruct (convert _ _ _) as [?|?]; simpl;
            [|intros [=]]).
      rewrite convert_inplace_spec.
      destruct (convert _ _ _) as [?|?]; simpl; [|intros [=]].
      by intros [= <-]. }
    split; [by apply insert_data_db|].
    destruct (apply_dtypes_Ok _ _ Hdf') as (_ & _ & -> & _).
    apply ids_with_uuids.
Qed.

(** ** Inserting and deleting one row *)




Lemma first_row_app_new db df u (R : row) :
  first_row db u = None → rows df = [R] → cell ID R = VStr u →
  first_row (pd_concat [db; df]) u = Some R.
Proof.
  intros Hfresh HR Hid. rewrite pd_concat_pair. unfold first_row in *. simpl.
  rewrite filter_app, (head_None_nil _ Hfresh), HR. simpl.
  rewrite filter_cons_True; [done|]. rewrite Hid. simpl.
  by rewrite bool_decide_true.
Qed.










(** ** Empty lists, and what no operation does *)

(** Property X21.  With an empty list of ids or of months nothing happens:
    the month derivation returns no month, [save_db] and
    [save_db_from_uuid] return and leave every store as it is, table
    without columns included; on a table with an id column [delete_data]
    returns with the store unchanged and [get_data_by_id] returns the
    columns and no row. *)
Theorem empty_list_is_noop (s : Store) :
  _get_months_from_uuid (_db s) [] = Ok [] ∧
  save_db [] s = (Ok (), s) ∧
  save_db_from_uuid [] s = (Ok (), s) ∧
  (ID ∈ columns (_db s) →
   delete_data [] s = (Ok (), s) ∧
   get_data_by_id (_db s) [] =
     Ok {| columns := columns (_db s); rows := [] |}).
Proof.
  assert (_get_months_from_uuid (_db s) [] = Ok []) as Hmonths.
  { unfold _get_months_from_uuid. simpl. by rewrite elements_empty. }
  split_and!; [done|done|by rewrite save_db_from_uuid_unfold, Hmonths|].
  intros Hid. split.
  - rewrite delete_data_unfold, Hmonths, getitem_Ok by done.
    rewrite <-list_fmap_compose, mask_fmap, not_isin_filter.
    rewrite filter_all.
    2:{ apply Forall_forall.
        intros r _ (u & Hu & _)%isin_series_eq. by apply elem_of_nil in Hu. }
    by destruct s as [[cs rs] ds fs n].
  - unfold get_data_by_id. rewrite getitem_Ok by done. simpl.
    rewrite <-list_fmap_compose, mask_fmap. do 2 f_equal.
    apply filter_none, Forall_forall.
    intros r _ (u & Hu & _)%isin_series_eq. by apply elem_of_nil in Hu.
Qed.

Lemma save_db_from_uuid_untouched us s :
  let s' := (save_db_from_uuid us s).2 in
  _db s' = _db s ∧ folders s' = folders s ∧ uuid_calls s' = uuid_calls s ∧
  (∀ p, is_Some (files s !! p) → is_Some (files s' !! p)).
Proof.
  rewrite save_db_from_uuid_unfold.
  destruct (_get_months_from_uuid (_db s) us) as [months|]; [|done].
  destruct (save_db_untouched months s) as (? & ? & ? & _ & ?). done.
Qed.

(** Property X22.  No operation creates a folder or removes a file, and
    only [insert_data] draws identifiers: whether it returns or raises,
    an insertion or a deletion leaves the set of folders as it was and
    every file that existed in existence; [insert_record] and
    [delete_data] leave the count of identifiers drawn as it was. *)
Theorem operations_keep_folders_and_files (op : Op) (s : Store) :
  let s' := exec op s in
  folders s' = folders s ∧
  (∀ p, is_Some (files s !! p) → is_Some (files s' !! p)) ∧
  uuid_calls s ≤ uuid_calls s' ∧
  match op with
  | InsertData _ => True
  | InsertRecord _ | DeleteData _ => uuid_calls s' = uuid_calls s
  end.
Proof.
  unfold exec. destruct op as [df|record|uuid_list]; cbn [call].
  - rewrite insert_data_unfold. cbv zeta.
    destruct (_apply_dtypes (with_uuids s df)) as [df'|];
      [|simpl; split_and!; [done..|lia|done]].
    destruct (getitem df' ID) as [ids|];
      [|simpl; split_and!; [done..|lia|done]].
    match goal with |- context [save_db_from_uuid ?us ?s2] =>
      destruct (save_db_from_uuid_untouched us s2) as (_ & ? & ? & ?) end.
    simpl in *. split_and!; [done..|lia|done].
  - rewrite insert_record_unfold.
    match goal with |- context [save_db_from_uuid ?us ?s2] =>
      destruct (save_db_from_uuid_untouched us s2) as (_ & ? & ? & ?) end.
    simpl in *. split_and!; [done..|lia|done].
  - rewrite delete_data_unfold.
    destruct (_get_months_from_uuid (_db s) uuid_list) as [months|]; [|done].
    destruct (getitem (_db s) ID) as [ids|]; [|done].
    match goal with |- context [save_db ?ks ?s2] =>
      destruct (save_db_untouched ks s2) as (_ & ? & ? & _ & ?) end.
    simpl in *. split_and!; [done..|lia|done].
Qed.

(** ** The registry *)

(** Property X23.  The registry is consistent with itself and with the
    coercion: the ten column labels are distinct; they are the mandatory
    columns, the non-mandatory ones and the id; the numeric columns are
    among them; the dict of the registry pairs the ten field names with
    the ten labels; every column [_apply_dtypes] reads is mandatory or has
    a default, so that a frame with the mandatory columns and the defaults
    lacks no column; and every default is a value the conversion of its
    column accepts. *)
Theorem registry_consistent :
  NoDup get_db_col_vals ∧ NoDup get_db_col_names ∧
  get_mandatory_cols ++ get_non_mandatory_cols.*1 ++ [ID] ≡ₚ get_db_col_vals ∧
  get_numeric_cols ⊆ get_db_col_vals ∧
  get_db_col_dict.*1 = get_db_col_names ∧
  get_db_col_dict.*2 = get_db_col_vals ∧
  dtype_cols ⊆ get_mandatory_cols ++ get_non_mandatory_cols.*1 ∧
  (∀ f c v, (f, c) ∈ dtype_steps → (c, v) ∈ get_non_mandatory_cols →
            ∃ w, f v = Ok w).
Proof.
  assert (∀ P `{Decision P}, bool_decide P = true → P) as Hdec.
  { intros P ? HP. by apply bool_decide_eq_true in HP. }
  split_and!.
  - by apply (Hdec _ _).
  - by apply (Hdec _ _).
  - unfold get_mandatory_cols, get_non_mandatory_cols, get_db_col_vals.
    cbn [fmap list_fmap fst app]. by solve_Permutation.
  - by apply (Hdec _ _).
  - done.
  - done.
  - by apply (Hdec _ _).
  - intros f c v Hf Hv. unfold dtype_steps in Hf.
    unfold get_non_mandatory_cols in Hv.
    repeat (apply elem_of_cons in Hv as [Hv|Hv]);
      try (by apply elem_of_nil in Hv); injection Hv as -> ->;
      repeat (apply elem_of_cons in Hf as [Hf|Hf]);
      try (by apply elem_of_nil in Hf); try discriminate Hf;
      injection Hf as ->; simpl; eauto.
Qed.

(** ** More on lookups and saves *)

(** Property X24.  On a table whose ids are strings, looking a single id
    up with [get_data_by_id] and filtering the id column on it with
    [get_data_by_col_val] return the same frame. *)
Theorem get_data_by_id_is_filter_on_id (db : DataFrame) (uuid : string)
    (Hid : ID ∈ columns db)
    (Hstr : Forall (λ v, ∃ u, v = VStr u) (ids db)) :
  get_data_by_col_val db [(ID, VStr uuid)] = get_data_by_id db [uuid].
Proof.
  unfold get_data_by_id. cbn [get_data_by_col_val].
  rewrite getitem_Ok by done. simpl.
  rewrite <-!list_fmap_compose, !mask_fmap. do 2 f_equal.
  apply filter_ext_elem. intros r Hr. unfold compose.
  unfold ids in Hstr. rewrite Forall_fmap, Forall_forall in Hstr.
  destruct (Hstr r Hr) as [u Hu]. simpl in Hu. rewrite Hu. simpl.
  rewrite !bool_decide_spec, list_elem_of_singleton. done.
Qed.

Lemma traverse_attr_Err (f : value → result pynum) (l : list value) :
  (∀ v, datelike v → ∃ n, f v = Ok n) →
  (∀ v, ¬ datelike v → f v = Err AttributeError) →
  Exists (λ v, ¬ datelike v) l → traverse f l = Err AttributeError.
Proof.
  intros Hok Herr. induction l as [|v l IH]; intros Hex.
  - by apply Exists_nil in Hex.
  - cbn [traverse].
    assert (datelike v ∨ ¬ datelike v) as [Hv|Hv]
      by (destruct v; simpl; tauto).
    + destruct (Hok v Hv) as [n ->]. simpl.
      apply Exists_cons in Hex as [?|Hex]; [done|]. by rewrite IH.
    + by rewrite Herr.
Qed.

(** Property X25.  [save_db] needs a date column of datetimes: asked to
    save any month, it raises [KeyError] when the table has no date
    column and [AttributeError] when some cell of the date column holds
    text, an integer or a boolean, and it writes nothing. *)
Theorem save_db_needs_datetimes (k : pynum * pynum)
    (rest : list (pynum * pynum)) (s : Store) :
  (DATE ∉ columns (_db s) →
   save_db (k :: rest) s = (Err (KeyError DATE), s)) ∧
  (DATE ∈ columns (_db s) →
   Exists (λ r, match r !! DATE with
                | Some (VStr _ | VInt _ | VBool _) => True
                | _ => False
                end) (rows (_db s)) →
   save_db (k :: rest) s = (Err AttributeError, s)).
Proof.
  split.
  - intros Hn. cbn [save_db]. unfold mbind, M_bind, get_db, lift, month_slice.
    by rewrite getitem_Err.
  - intros Hc Hex. cbn [save_db].
    unfold mbind, M_bind, get_db, lift, month_slice.
    rewrite getitem_Ok by done. simpl. unfold dt_year.
    rewrite (traverse_attr_Err attr_year); [done| | |].
    + intros v Hv. destruct v; try done; simpl; eauto.
    + intros v Hv. by destruct v.
    + apply Exists_fmap. eapply Exists_impl; [exact Hex|].
      intros r. unfold compose, cell. cbv beta.
      destruct (r !! DATE) as [[]|]; simpl; tauto.
Qed.

(** Property X26.  A row without a date is inserted with an error and
    never written: for a one-row frame whose date coerces to [NaT],
    inserted into a table whose date cells are datetimes and to which the
    generated id is new, [insert_data] raises [ValueError] after the row
    has been appended to the table, and no file is written. *)
Theorem insert_data_missing_date (s : Store) (cols : list string) (R : row)
    (df' : DataFrame) (R' : row) :
  let df := {| columns := cols; rows := [R] |} in
  let uuid := create_uuid (uuid_calls s) in
  Forall (λ r, datelike (cell DATE r)) (rows (_db s)) →
  first_row (_db s) uuid = None →
  _apply_dtypes (with_uuids s df) = Ok df' →
  rows df' = [R'] → cell DATE R' = VNaT →
  let out := insert_data df s in
  out.1 = Err ValueError ∧ rows (_db out.2) = rows (_db s) ++ [R'] ∧
  files out.2 = files s.
Proof.
  intros df uuid Htable Hfresh Hdf' HR' Hnat.
  destruct (apply_dtypes_Ok _ _ Hdf') as (Hc & Hdatecol & Hids & _).
  rewrite ids_with_uuids in Hids. simpl in Hids. fold uuid in Hids.
  assert (ID ∈ columns df') as Hid by (rewrite Hc; apply ID_in_with_uuids).
  rewrite <-Hc in Hdatecol.
  assert (cell ID R' = VStr uuid) as HidR'.
  { unfold ids in Hids. rewrite HR' in Hids. simpl in Hids. congruence. }
  rewrite insert_data_unfold, Hdf'. cbv zeta. rewrite getitem_Ok by done.
  fold (ids df'). rewrite Hids. change (to_list [VStr uuid]) with [uuid].
  set (db' := pd_concat [_db s; df']).
  assert (ID ∈ columns db' ∧ DATE ∈ columns db') as [? ?].
  { unfold db'. rewrite pd_concat_pair. simpl.
    split; apply elem_of_union_columns; auto. }
  assert (rows db' = rows (_db s) ++ [R']) as Hrows.
  { unfold db'. rewrite pd_concat_pair. simpl. by rewrite HR'. }
  rewrite save_db_from_uuid_unfold. cbn [_db]. unfold _get_months_from_uuid.
  assert (first_row db' uuid = Some R') as Hfirst
    by by apply first_row_app_new.
  rewrite months_loop_cons, month_of_uuid_typed, Hfirst by done.
  rewrite Hnat. simpl.
  rewrite (right_id_L ∅ (∪)), elements_singleton.
  cbn [save_db]. unfold mbind, M_bind, get_db, lift, month_slice. cbn [_db].
  rewrite getitem_Ok by done. rewrite Hrows. cbn [mbind result_bind].
  unfold dt_year. rewrite traverse_fmap.
  rewrite (traverse_Ok (λ r, attr_year (cell DATE r))
             (λ r, match cell DATE r with
                   | VTimestamp t => PInt (year t) | _ => PNaN end)).
  2:{ apply Forall_app. split.
      - eapply Forall_impl; [exact Htable|]. intros r Hr.
        unfold datelike in Hr. by destruct (cell DATE r).
      - repeat constructor. by rewrite Hnat. }
  cbn [mbind result_bind py_int fst snd _db files]. by rewrite Hrows.
Qed.

End coverage.

(** * The examples, worked *)

#[local] Existing Instance seq_utils.
#[local] Existing Instance strict_pandas.

Ltac by_compute :=
  lazymatch goal with
  | |- ?P => apply (@bool_decide_unpack P _); vm_compute; exact I
  end.

Lemma store_X_state :
  _db store_X = to_df record_X ∧
  map_to_list (files store_X) = [(("2022", "1.pq"), to_df record_X)].
Proof. vm_compute. done. Qed.



(** Claim C5 fails for [insert_record]: the same record inserted twice
    leaves two rows with one id. *)
Lemma insert_record_twice_shares_id :
  let s := run [InsertRecord record_X; InsertRecord record_X] empty_store in
  NoDup (ids (_db empty_store)) ∧
  ids (_db s) = [VStr "X"; VStr "X"] ∧
  ¬ NoDup (ids (_db s)).
Proof.
  split_and!.
  - vm_compute. constructor.
  - vm_compute. reflexivity.
  - intros Hnd. vm_compute in Hnd. apply NoDup_cons in Hnd as [Hin _].
    apply Hin. left.
Qed.


(** Without the year's folder the write raises: the row is in the table
    and in no file. *)
Lemma insert_without_folder_raises :
  let out := insert_data scenario_df_defaults (init ∅ ∅ 0) in
  out.1 = Err OSError ∧
  rows (_db out.2) = [scenario_stored "u0"] ∧
  files out.2 = ∅.
Proof. vm_compute. done. Qed.



Lemma delete_data_missing_witness :
  Exists (λ u, first_row (_db store_X) u = None) ["X"; "Y"] ∧
  delete_data ["X"; "Y"] store_X = (Err IndexError, store_X).
Proof.
  assert (Exists (λ u, first_row (_db store_X) u = None) ["X"; "Y"]) as H.
  { right. left. vm_compute. reflexivity. }
  split; [exact H|].
  destruct (delete_data_missing_id ["X"; "Y"] store_X H) as (e & _ & -> & He).
  rewrite He; [done|].
  split_and!; [by_compute..|]. vm_compute. by repeat constructor.
Defined.




Lemma ids_unique_witness :
  let ops := [InsertData scenario_df_defaults; InsertRecord record_X] in
  NoDup (ids (_db empty_store)) ∧ along op_fresh empty_store ops ∧
  NoDup (ids (_db (run ops empty_store))).
Proof.
  intros ops.
  assert (NoDup (ids (_db empty_store))) as H1 by (vm_compute; constructor).
  assert (along op_fresh empty_store ops) as H2.
  { cbn [along ops op_fresh]. split_and!; try done.
    - vm_compute. apply NoDup_singleton.
    - vm_compute. intros u _ Hin. by apply elem_of_nil in Hin.
    - vm_compute. apply NoDup_singleton.
    - vm_compute. intros v ->%list_elem_of_singleton [=]%list_elem_of_singleton. }
  split_and!; [done..|].
  apply (ids_unique_along_fresh_inserts empty_store ops H1 H2).
Defined.


(** ** Further examples *)




Lemma get_data_by_col_val_missing_key_witness :
  Forall (λ cv, cv.1 ∈ columns (_db store_X)) [(PAYEE, VStr "Shop")] ∧
  "colour" ∉ columns (_db store_X) ∧
  get_data_by_col_val (_db store_X)
    [(PAYEE, VStr "Shop"); ("colour", VStr "red"); (CAT, VStr "food")] =
  Err (KeyError "colour").
Proof.
  assert (Forall (λ cv : string * value, cv.1 ∈ columns (_db store_X))
            [(PAYEE, VStr "Shop")]) as H1 by (repeat constructor; by_compute).
  assert ("colour" ∉ columns (_db store_X)) as H2 by by_compute.
  split_and!; [done..|].
  apply (get_data_by_col_val_missing_key (_db store_X) [(PAYEE, VStr "Shop")]
           [(CAT, VStr "food")] "colour" (VStr "red") H1 H2).
Defined.

Lemma get_data_by_col_val_missing_value_witness :
  ACCOUNT ∈ columns (_db store_X) ∧
  cell ACCOUNT <$> rows (_db store_X) = [VFloat nan] ∧
  get_data_by_col_val (_db store_X) [(ACCOUNT, VFloat nan)] =
  Ok {| columns := columns (_db store_X); rows := [] |}.
Proof.
  assert (ACCOUNT ∈ columns (_db store_X)) as H1 by by_compute.
  split_and!; [done|vm_compute; reflexivity|].
  apply (get_data_by_col_val_missing_value (_db store_X) ACCOUNT (VFloat nan)
           [] H1); [constructor|auto].
Defined.

Lemma apply_dtypes_types_witness :
  let df := with_uuids empty_store scenario_df_defaults in
  let df' := {| columns := columns df; rows := [scenario_stored "u0"] |} in
  _apply_dtypes df = Ok df' ∧
  Forall2 (λ r r', has_dtypes r' ∧ ∀ c, c ∉ dtype_cols → r' !! c = r !! c)
          (rows df) (rows df').
Proof.
  intros df df'.
  assert (_apply_dtypes df = Ok df') as H by (vm_compute; reflexivity).
  split; [exact H|]. apply (apply_dtypes_types_and_frame df df' H).
Defined.






Lemma get_data_by_id_is_filter_witness :
  ID ∈ columns (_db store_X) ∧
  Forall (λ v, ∃ u, v = VStr u) (ids (_db store_X)) ∧
  get_data_by_col_val (_db store_X) [(ID, VStr "X")] = Ok (_db store_X).
Proof.
  assert (ID ∈ columns (_db store_X)) as H1 by by_compute.
  assert (Forall (λ v, ∃ u, v = VStr u) (ids (_db store_X))) as H2.
  { vm_compute. repeat constructor. by eexists. }
  split_and!; [done..|].
  etrans; [apply (get_data_by_id_is_filter_on_id (_db store_X) "X" H1 H2)|].
  vm_compute. reflexivity.
Defined.

Lemma insert_data_missing_date_witness :
  let R' := <[DATE := VNaT]> (scenario_stored "u1") in
  let df' := {| columns := get_mandatory_cols ++ get_non_mandatory_cols.*1 ++ [ID];
                rows := [R'] |} in
  let s := exec (InsertData scenario_df_defaults) empty_store in
  let out := insert_data undated_df s in
  Forall (λ r, datelike (cell DATE r)) (rows (_db s)) ∧
  first_row (_db s) "u1" = None ∧
  _apply_dtypes (with_uuids s undated_df) = Ok df' ∧
  out.1 = Err ValueError ∧
  rows (_db out.2) = [scenario_stored "u0"; R'] ∧
  files out.2 = files s.
Proof.
  intros R' df' s out.
  assert (Forall (λ r, datelike (cell DATE r)) (rows (_db s))) as H1.
  { vm_compute. repeat constructor. }
  assert (first_row (_db s) (create_uuid (uuid_calls s)) = None) as H2
    by (vm_compute; reflexivity).
  assert (_apply_dtypes (with_uuids s undated_df) = Ok df') as H3
    by (vm_compute; reflexivity).
  assert (cell DATE R' = VNaT) as H5 by (vm_compute; reflexivity).
  split_and!; [done|exact H2|done|..];
    destruct (insert_data_missing_date s (columns undated_df)
                (<[DATE := VNone]>
                   (scenario_record ∪ list_to_map get_non_mandatory_cols))
                df' R' H1 H2 H3 eq_refl H5) as (Hout & Hrows & Hfiles);
    [done| |done].
  etrans; [exact Hrows|]. vm_compute. reflexivity.
Defined.
